(** * AI Data Cleaning Assistant (app.py): a shallow embedding

    The application is a Streamlit script.  Its own logic is text handling
    around two remote calls (extracting a JSON object or CSV text from a
    model reply), a few table statistics, and session-state updates.  This
    development embeds those parts of [app.py] and proves the properties the
    specification states about them.

    Conventions.
    - A Python [str] is a list of Unicode code points ([N]).
    - Library functions the script calls but does not define ([json.loads],
      [pandas.read_csv], [DataFrame.to_csv], the remote chat endpoint) are
      the fields of the class [Libraries]; the theorems hold for every
      instance of it.  Reference instances, used to run the script on
      concrete inputs, are given in [Module Ref].
    - Streamlit calls ([st.error], [st.metric], ...) append widgets to the
      page; the page, the requests sent to the remote service and
      [st.session_state] form the explicit state of the script. *)

From Stdlib Require Import String Ascii.
From Stdlib Require Import ZArith NArith Lia Bool List.
From Stdlib Require Import Permutation Sorted.
Import ListNotations.
Local Open Scope nat_scope.
Local Open Scope list_scope.

Set Implicit Arguments.
Set Warnings "-register-all,-abstract-large-number,-notation-for-abbreviation".

(* ================================================================== *)
(** * Python strings *)
(* ================================================================== *)

Module Py.

Notation char := N (only parsing).
Notation str := (list N) (only parsing).

(** A Rocq string literal read as a Python [str] (code points below 256). *)
Definition lit (s : string) : str := List.map N_of_ascii (list_ascii_of_string s).

(** Same, with every apostrophe of the literal standing for a double quote
    (JSON text is written this way in the examples below). *)
Definition dq (s : string) : str :=
  List.map (fun c => if N.eqb c 39 then 34%N else c) (lit s).

Definition nl : str := [10%N].

Definition str_eqb (a b : str) : bool :=
  if list_eq_dec N.eq_dec a b then true else false.

(** [s.startswith(p)] *)
Fixpoint startswith (s p : str) {struct p} : bool :=
  match p with
  | [] => true
  | a :: p' =>
      match s with
      | [] => false
      | b :: s' => N.eqb a b && startswith s' p'
      end
  end.

(** Lowest index at which [sub] occurs in [s], if any. *)
Fixpoint index (s sub : str) {struct s} : option nat :=
  if startswith s sub then Some 0
  else match s with
       | [] => None
       | _ :: s' => option_map S (index s' sub)
       end.

(** Highest index at which [sub] occurs in [s], if any. *)
Fixpoint rindex (s sub : str) {struct s} : option nat :=
  match s with
  | [] => if startswith [] sub then Some 0 else None
  | _ :: s' =>
      match rindex s' sub with
      | Some i => Some (S i)
      | None => if startswith s sub then Some 0 else None
      end
  end.

Definition of_index (o : option nat) : Z :=
  match o with Some i => Z.of_nat i | None => (-1)%Z end.

(** [s.find(sub)] and [s.rfind(sub)]: the index, or -1. *)
Definition find (s sub : str) : Z := of_index (index s sub).
Definition rfind (s sub : str) : Z := of_index (rindex s sub).

(** [sub in s] *)
Definition contains (s sub : str) : bool :=
  match index s sub with Some _ => true | None => false end.

(** [s[a:b]] with Python's treatment of negative and out-of-range bounds. *)
Definition clamp (n i : Z) : Z :=
  let j := if (i <? 0)%Z then (i + n)%Z else i in
  Z.max 0 (Z.min n j).

Definition slice (s : str) (a b : Z) : str :=
  let n := Z.of_nat (length s) in
  let a' := clamp n a in
  let b' := clamp n b in
  firstn (Z.to_nat (b' - a')) (skipn (Z.to_nat a') s).

(** [s.split(sep)] for a non-empty separator: the pieces between the
    occurrences of [sep] found left to right without overlap.  (Python
    raises [ValueError] for an empty separator; the script only splits on
    literals.)  The recursion is on the remaining text, bounded by its
    length. *)
Fixpoint split_fuel (fuel : nat) (s sep : str) : list str :=
  match index s sep with
  | None => [s]
  | Some i =>
      match fuel with
      | O => [s]
      | S fuel' =>
          firstn i s :: split_fuel fuel' (skipn (i + length sep) s) sep
      end
  end.

Definition split (s sep : str) : list str := split_fuel (length s) s sep.

(** [sep.join(parts)] *)
Fixpoint join (sep : str) (parts : list str) : str :=
  match parts with
  | [] => []
  | [p] => p
  | p :: rest => p ++ sep ++ join sep rest
  end.

(** Code points for which [str.isspace] holds; [str.strip()] removes them
    from both ends. *)
Definition isspace (c : char) : bool :=
  (((9 <=? c) && (c <=? 13)) || ((28 <=? c) && (c <=? 32))
   || (c =? 133) || (c =? 160) || (c =? 5760)
   || ((8192 <=? c) && (c <=? 8202))
   || (c =? 8232) || (c =? 8233) || (c =? 8239) || (c =? 8287)
   || (c =? 12288))%N.

Fixpoint lstrip (s : str) : str :=
  match s with
  | [] => []
  | c :: s' => if isspace c then lstrip s' else s
  end.

Definition rstrip (s : str) : str := rev (lstrip (rev s)).
Definition strip (s : str) : str := rstrip (lstrip s).

(** Truth value of a [str]. *)
Definition truthy_str (s : str) : bool :=
  match s with [] => false | _ => true end.

End Py.

Import Py.

(* ================================================================== *)
(** * JSON values as Python objects *)
(* ================================================================== *)

(** What [json.loads] returns: [None], [bool], [int], [float], [str],
    [list] and [dict].  A float is kept as the decimal [m * 10^e] its
    literal denotes; a [dict] keeps its keys in insertion order. *)
Inductive json : Type :=
| JNull
| JBool (b : bool)
| JInt (z : Z)
| JFloat (m e : Z)
| JNaN
| JInf (negative : bool)
| JStr (s : str)
| JArr (items : list json)
| JObj (members : list (str * json)).

(** [d[k]] on the members of a [dict]: the value, if the key is present. *)
Fixpoint dict_lookup (members : list (str * json)) (k : str) : option json :=
  match members with
  | [] => None
  | (k', v) :: rest => if str_eqb k' k then Some v else dict_lookup rest k
  end.

(** A decimal literal becomes the float zero when it is zero or lies at or
    below half the least subnormal double, [2^-1075]. *)
Definition float_is_zero (m e : Z) : bool :=
  if (0 <=? e)%Z then (m =? 0)%Z
  else (Z.abs m * 2 ^ 1075 <=? 10 ^ (- e))%Z.

(** Truth value of an object ([if analysis:]). *)
Definition truthy (v : json) : bool :=
  match v with
  | JNull => false
  | JBool b => b
  | JInt z => negb (z =? 0)%Z
  | JFloat m e => negb (float_is_zero m e)
  | JNaN => true
  | JInf _ => true
  | JStr s => truthy_str s
  | JArr l => match l with [] => false | _ => true end
  | JObj l => match l with [] => false | _ => true end
  end.

(* ================================================================== *)
(** * Exceptions, tables, widgets and the state of a script run *)
(* ================================================================== *)

Inductive exn_kind :=
| JSONDecodeError | KeyError | TypeError | AttributeError | IndexError
| OtherException.

(** An exception: its class and the text [str(e)] shown in messages (for
    the exceptions the interpreter raises in this script, only the subject
    of the message: the missing key or the offending operation). *)
Record exn := Exn { kind : exn_kind; detail : str }.

Inductive outcome (A : Type) : Type :=
| Ok (a : A)
| Raise (e : exn).
Arguments Ok {A} a.
Arguments Raise {A} e.

(** A DataFrame: named, typed columns and ordered rows, each row with one
    cell per column; a cell is [None] when null. *)
Record table (V D : Type) := Table {
  columns : list (str * D);
  rows : list (list (option V))
}.

(** The request of [client.chat.completions.create]: the model, the one
    message (its role and content), the temperature (the decimal
    [fst * 10^snd]) and the token limit. *)
Record request := Request {
  model : str;
  role : str;
  content : str;
  temperature : Z * Z;
  max_tokens : Z
}.

Inductive icon := Red | Yellow | Green.

(** The second line of the missing-values metric: the float
    [missing_total / cells * 100] printed with one decimal, kept here as
    the pair it is computed from. *)
Inductive delta :=
| Percent (missing_total cells : nat)
| Change (d : Z).

Inductive chart (D : Type) :=
| FigMissing (counts : list (str * nat))
| FigDtypes (types : list D)
| FigDist (column : str)
| FigCorr (numeric_columns : list str).

Inductive msg :=
| KeyNotFound                 (* GROQ_API_KEY not found. Please set it ... *)
| GetKeyFrom                  (* Get your free API key from: ... *)
| ClientInitError (e : exn)   (* Error initializing Groq client: e *)
| CouldNotParse               (* Could not parse AI response. Please try again. *)
| AnalysisError (e : exn)     (* Analysis error: e *)
| CleaningError (e : exn)     (* Cleaning error: e *)
| ParseCleanedError (e : exn) (* Error parsing cleaned data: e *)
| UnsupportedFormat           (* Unsupported file format. ... *)
| LoadError (e : exn)         (* Error loading file: e *)
| FileLoaded (name : str)     (* File loaded: name *)
| NoMissingValues             (* No missing values found! *)
| PleaseSetKey                (* Please set your GROQ_API_KEY to use AI features *)
| ApiKeyRequired              (* API Key Required ... (welcome screen) *)
| ApiKeyMissing               (* API Key Missing (sidebar) *)
| ApiKeyConfigured            (* API Key Configured (sidebar) *)
| GetStarted                  (* Get Started: Upload a CSV or Excel file above! *)
| DataQuality (i : icon) (summary : json)
| IssueLine (n : nat) (issue : json)
| RecommendationLine (n : nat) (rec : json)
| CleanedOk.                  (* Data cleaned successfully! *)

(** What a Streamlit call puts on the page.  The long static markdown
    blocks of the script (style sheet, titles, welcome text, sidebar
    text) are recorded by their heading. *)
Inductive widget (V D : Type) :=
| st_error (m : msg)
| st_warning (m : msg)
| st_info (m : msg)
| st_success (m : msg)
| st_markdown (heading : string)
| st_code (snippet : string)
| st_metric (label : string) (value : nat) (d : option delta)  (* label without its emoji *)
| st_dataframe (t : table V D)
| st_column_info (info : list (str * D * nat * nat * nat))
| st_plotly_chart (c : chart D)
| st_balloons
| st_download_button (data : str) (file_name : str).

Arguments st_error {V D} m.
Arguments st_warning {V D} m.
Arguments st_info {V D} m.
Arguments st_success {V D} m.
Arguments st_markdown {V D} heading.
Arguments st_code {V D} snippet.
Arguments st_metric {V D} label value d.
Arguments st_dataframe {V D} t.
Arguments st_column_info {V D} info.
Arguments st_plotly_chart {V D} c.
Arguments st_balloons {V D}.
Arguments st_download_button {V D} data file_name.
Arguments FigMissing {D} counts.
Arguments FigDtypes {D} types.
Arguments FigDist {D} column.
Arguments FigCorr {D} numeric_columns.

(** [st.session_state]: the three keys the script uses; [None] when the
    key is absent. *)
Record session_state (V D : Type) := Session {
  stored_analysis : option json;          (* st.session_state['analysis'] *)
  stored_cleaned_data : option str;       (* st.session_state['cleaned_data'] *)
  stored_cleaned_df : option (table V D)  (* st.session_state['cleaned_df'] *)
}.

(** State of one run of the script. *)
Record world (V D : Type) := World {
  page : list (widget V D);
  sent : list request;
  session : session_state V D
}.

(** The Groq client object. *)
Record groq := Groq { api_key : str }.

(** An uploaded file: its name and its bytes. *)
Record uploaded_file := Upload { name : str; data : list N }.

(** [os.environ] *)
Definition environ := str -> option str.

(** The library functions the script calls. *)
Class Libraries := {
  value : Type;                                  (* a non-null cell *)
  value_eq_dec : forall x y : value, {x = y} + {x <> y};
  dtype : Type;                                  (* a column dtype *)
  is_number : dtype -> bool;     (* selected by select_dtypes(include=['number']) *)
  json_loads : str -> outcome json;              (* json.loads *)
  read_csv : str -> outcome (table value dtype); (* pd.read_csv(io.StringIO(text)) *)
  read_csv_file : list N -> outcome (table value dtype);   (* pd.read_csv(file) *)
  read_excel : list N -> outcome (table value dtype);      (* pd.read_excel(file) *)
  to_csv : table value dtype -> str;             (* df.to_csv(index=False) *)
  new_client : str -> outcome groq;              (* Groq(api_key=...) *)
  (* client.chat.completions.create(...).choices[0].message.content: the
     text of the reply, or the exception of the call *)
  chat_completion : groq -> request -> outcome str
}.

(* ================================================================== *)
(** * The script *)
(* ================================================================== *)

Section Script.

Context {L : Libraries}.

Definition DataFrame : Type := table value dtype.
Definition widget_t : Type := widget value dtype.
Definition world_t : Type := world value dtype.

(** ** Computations of the script: state passing with exceptions *)

Definition M (A : Type) : Type := world_t -> outcome A * world_t.

Definition ret {A} (a : A) : M A := fun w => (Ok a, w).

Definition bind {A B} (m : M A) (k : A -> M B) : M B :=
  fun w =>
    match m w with
    | (Ok a, w') => k a w'
    | (Raise e, w') => (Raise e, w')
    end.

Definition lift {A} (o : outcome A) : M A := fun w => (o, w).

(** [try: body  except Exception as e: handler e] *)
Definition try_except {A} (body : M A) (handler : exn -> M A) : M A :=
  fun w =>
    match body w with
    | (Ok a, w') => (Ok a, w')
    | (Raise e, w') => handler e w'
    end.

(** A Streamlit call that draws a widget. *)
Definition st (x : widget_t) : M unit :=
  fun w => (Ok tt, World (page w ++ [x]) (sent w) (session w)).

(** One call of the remote endpoint: the request leaves the process
    whether or not an answer comes back. *)
Definition create (c : groq) (r : request) : M str :=
  fun w => (chat_completion c r, World (page w) (sent w ++ [r]) (session w)).

Definition get_session : M (session_state value dtype) :=
  fun w => (Ok (session w), w).

Definition set_session (s : session_state value dtype) : M unit :=
  fun w => (Ok tt, World (page w) (sent w) s).

End Script.

Arguments M {L} A.

Declare Scope script_scope.
Delimit Scope script_scope with script.
Notation "x <- m ;; k" := (bind m (fun x => k))
  (at level 61, m at next level, right associativity) : script_scope.
Notation "m ;; k" := (bind m (fun _ => k))
  (at level 61, right associativity) : script_scope.
Open Scope script_scope.

Section Statistics.

Context {L : Libraries}.

(** ** Table statistics (section 4.2 of the specification) *)

Definition cell_eqb (a b : option value) : bool :=
  match a, b with
  | None, None => true
  | Some x, Some y => if value_eq_dec x y then true else false
  | _, _ => false
  end.

Fixpoint row_eqb (r1 r2 : list (option value)) : bool :=
  match r1, r2 with
  | [], [] => true
  | a :: r1', b :: r2' => cell_eqb a b && row_eqb r1' r2'
  | _, _ => false
  end.

(** [len(df)] and [len(df.columns)] *)
Definition len (df : DataFrame) : nat := length (rows df).
Definition n_columns (df : DataFrame) : nat := length (columns df).

(** [df.head(n)] *)
Definition head (n : nat) (df : DataFrame) : DataFrame :=
  Table (columns df) (firstn n (rows df)).

(** The cells of column [j], top to bottom. *)
Definition column_cells (df : DataFrame) (j : nat) : list (option value) :=
  List.map (fun r => nth j r None) (rows df).

Definition is_null (c : option value) : bool :=
  match c with None => true | Some _ => false end.

(** [df.isnull().sum()]: nulls per column. *)
Definition isnull_sum (df : DataFrame) : list nat :=
  List.map (fun j => length (filter is_null (column_cells df j)))
           (seq 0 (n_columns df)).

(** [df.isnull().sum().sum()] *)
Definition missing_total (df : DataFrame) : nat := list_sum (isnull_sum df).

(** [df.duplicated()]: a row is flagged when an equal row was seen above
    it (nulls compare equal to nulls). *)
Fixpoint duplicated_from (seen rest : list (list (option value))) : list bool :=
  match rest with
  | [] => []
  | r :: rest' => existsb (row_eqb r) seen :: duplicated_from (r :: seen) rest'
  end.

Definition duplicated (df : DataFrame) : list bool := duplicated_from [] (rows df).

(** [df.duplicated().sum()] *)
Definition duplicates (df : DataFrame) : nat := length (filter (fun b => b) (duplicated df)).

(** [df.count()] and [df.nunique()] for column [j]. *)
Definition non_null (df : DataFrame) (j : nat) : nat :=
  length (filter (fun c => negb (is_null c)) (column_cells df j)).

Fixpoint distinct (seen cells : list (option value)) : nat :=
  match cells with
  | [] => 0
  | c :: cells' =>
      if is_null c || existsb (cell_eqb c) seen then distinct seen cells'
      else S (distinct (c :: seen) cells')
  end.

Definition nunique (df : DataFrame) (j : nat) : nat := distinct [] (column_cells df j).

(** The table of the "Column Information" expander. *)
Definition column_info (df : DataFrame) : list (str * dtype * nat * nat * nat) :=
  List.map (fun jc => let '(j, (cname, ty)) := jc in
              (cname, ty, non_null df j, nth j (isnull_sum df) 0, nunique df j))
           (combine (seq 0 (n_columns df)) (columns df)).

(** [Series.sort_values(ascending=False)] on a series of counts, each with
    its index label: the counts in descending order.  Entries with equal
    counts stay in the order they had (pandas promises no order among
    them; nothing below depends on it). *)
Fixpoint insert_descending (p : str * nat) (sorted : list (str * nat))
  : list (str * nat) :=
  match sorted with
  | [] => [p]
  | q :: rest =>
      if snd q <=? snd p then p :: sorted else q :: insert_descending p rest
  end.

Definition sort_values_descending (series : list (str * nat)) : list (str * nat) :=
  fold_right insert_descending [] series.

(** [create_data_quality_viz]: the missing-values bar chart (only when some
    column has nulls; its bars are the columns with nulls, in descending
    order of their counts), the dtype pie chart, and the histogram
    of the first numeric column (when there is one). *)
Definition create_data_quality_viz (df : DataFrame)
  : option (chart dtype) * chart dtype * option (chart dtype) :=
  let missing := combine (List.map fst (columns df)) (isnull_sum df) in
  let missing := sort_values_descending (filter (fun p => 0 <? snd p) missing) in
  let fig_missing :=
    if 0 <? length missing then Some (FigMissing missing) else None in
  let fig_dtypes := FigDtypes (List.map snd (columns df)) in
  let numeric_cols := filter (fun c => is_number (snd c)) (columns df) in
  let fig_dist :=
    match numeric_cols with
    | first_num_col :: _ => Some (FigDist (fst first_num_col))
    | [] => None
    end in
  (fig_missing, fig_dtypes, fig_dist).

End Statistics.

(** ** Python operations on JSON values used by the script *)

Definition and_then {A B} (o : outcome A) (k : A -> outcome B) : outcome B :=
  match o with
  | Ok a => k a
  | Raise e => Raise e
  end.

(** [l[i]] *)
Definition item {A} (l : list A) (i : nat) : outcome A :=
  match nth_error l i with
  | Some x => Ok x
  | None => Raise (Exn IndexError (lit "list index out of range"))
  end.

(** [v[k]] with a string key. *)
Definition getitem (v : json) (k : str) : outcome json :=
  match v with
  | JObj members =>
      match dict_lookup members k with
      | Some x => Ok x
      | None => Raise (Exn KeyError k)
      end
  | _ => Raise (Exn TypeError (lit "subscript"))
  end.

(** [v.get(k, default)] *)
Definition dict_get (v : json) (k : str) (default : json) : outcome json :=
  match v with
  | JObj members =>
      match dict_lookup members k with
      | Some x => Ok x
      | None => Ok default
      end
  | _ => Raise (Exn AttributeError (lit "get"))
  end.

(** The items a [for] loop or [join] draws from a value: the elements of a
    list, the characters of a string, the keys of a dict. *)
Definition py_iter (v : json) : outcome (list json) :=
  match v with
  | JArr items => Ok items
  | JStr s => Ok (List.map (fun c => JStr [c]) s)
  | JObj members => Ok (List.map (fun p => JStr (fst p)) members)
  | _ => Raise (Exn TypeError (lit "not iterable"))
  end.

Fixpoint all_str (items : list json) : outcome (list str) :=
  match items with
  | [] => Ok []
  | JStr s :: rest => and_then (all_str rest) (fun ss => Ok (s :: ss))
  | _ :: _ => Raise (Exn TypeError (lit "join: expected str instance"))
  end.

(** [sep.join(v)] *)
Definition str_join (sep : str) (v : json) : outcome str :=
  and_then (py_iter v) (fun items =>
  and_then (all_str items) (fun ss => Ok (join sep ss))).

(** [enumerate(items, start)] *)
Fixpoint enumerate {A} (start : nat) (items : list A) : list (nat * A) :=
  match items with
  | [] => []
  | x :: rest => (start, x) :: enumerate (S start) rest
  end.

(** [severity_color.get(severity, yellow)]: the lookup hashes its key, so
    a list or a dict as key is a [TypeError]. *)
Definition severity_color (severity : json) : outcome icon :=
  match severity with
  | JArr _ | JObj _ => Raise (Exn TypeError (lit "unhashable type"))
  | JStr s =>
      if str_eqb s (lit "high") then Ok Red
      else if str_eqb s (lit "medium") then Ok Yellow
      else if str_eqb s (lit "low") then Ok Green
      else Ok Yellow
  | _ => Ok Yellow
  end.

(** [s.lower()] on the file extension.  Only ASCII letters are mapped; no
    other code point lowers to a letter of [csv], [xlsx] or [xls], so the
    comparisons of [load_file] are decided as in Python. *)
Definition lower (s : str) : str :=
  List.map (fun c => if ((65 <=? c) && (c <=? 90))%N then (c + 32)%N else c) s.

Section Remote.

Context {L : Libraries}.

(** ** [get_client] *)

Definition get_client (env : environ) : M (option groq) :=
  try_except
    (let api_key := env (lit "GROQ_API_KEY") in
     match api_key with
     | Some k =>
         if truthy_str k then
           c <- lift (new_client k) ;; ret (Some c)
         else
           st (st_error KeyNotFound) ;; st (st_info GetKeyFrom) ;; ret None
     | None =>
         st (st_error KeyNotFound) ;; st (st_info GetKeyFrom) ;; ret None
     end)
    (fun e => st (st_error (ClientInitError e)) ;; ret None).

(** ** [analyze_data] *)

Definition llama : str := lit "llama-3.3-70b-versatile".

Definition analysis_prompt (csv_string : str) : str :=
  dq "Analyze this CSV data sample and provide data cleaning recommendations. 
Return ONLY a valid JSON object with this exact structure (no markdown, no explanations):
{
  'issues': ['list of specific issues found'],
  'recommendations': ['list of cleaning steps to take'],
  'summary': 'brief summary of data quality',
  'severity': 'high/medium/low'
}

CSV Data Sample:
" ++ csv_string.

Definition analysis_request (csv_string : str) : request :=
  Request llama (lit "user") (analysis_prompt csv_string) (3, -1)%Z 1500.

(** Lines 89-92: the text of the first fenced block, when the reply has
    one. *)
Definition unfence_json (response_text : str) : outcome str :=
  if contains response_text (lit "```json") then
    and_then (item (split response_text (lit "```json")) 1) (fun after =>
    item (split after (lit "```")) 0)
  else if contains response_text (lit "```") then
    and_then (item (split response_text (lit "```")) 1) (fun after =>
    item (split after (lit "```")) 0)
  else Ok response_text.

(** Lines 99-107, the handler of [json.JSONDecodeError]: [response_text]
    is the variable as the [try] block left it, that is the unfenced and
    stripped text ([json.loads] is the only statement of the block that
    raises this class). *)
Definition brace_fallback (response_text : str) : M json :=
  let start := find response_text (lit "{") in
  let end_ := (rfind response_text (lit "}") + 1)%Z in
  if negb (start =? -1)%Z && (end_ >? start)%Z then
    let json_str := slice response_text start end_ in
    analysis <- lift (json_loads json_str) ;;
    ret analysis
  else
    st (st_error CouldNotParse) ;; ret JNull.

(** Lines 86-107: the parsing of the reply.  Python's [None] is [JNull]. *)
Definition parse_analysis (response_text : str) : M json :=
  response_text <- lift (unfence_json response_text) ;;
  let response_text := strip response_text in
  match json_loads response_text with
  | Ok analysis => ret analysis
  | Raise e =>
      match kind e with
      | JSONDecodeError => brace_fallback response_text
      | _ => lift (Raise e)
      end
  end.

Definition analyze_data (client : option groq) (df_sample : DataFrame) : M json :=
  match client with
  | None => ret JNull
  | Some c =>
      let csv_string := to_csv df_sample in
      try_except
        (response_text <- create c (analysis_request csv_string) ;;
         parse_analysis response_text)
        (fun e => st (st_error (AnalysisError e)) ;; ret JNull)
  end.

(** ** [clean_data] *)

Definition cleaning_prompt (issues csv_string : str) : str :=
  lit "Clean this CSV data based on these issues: " ++ issues ++
  lit "

Apply these fixes intelligently:
1. Remove duplicate rows
2. Handle missing values (median for numbers, mode for categories, or remove if >50% missing)
3. Standardize formats (dates, text case, numbers)
4. Remove extra whitespace and special characters where inappropriate
5. Fix obvious data entry errors
6. Ensure consistent data types per column

IMPORTANT: Return ONLY the cleaned CSV data with headers. No explanations, no markdown formatting, just the raw CSV.

Original CSV Data:
" ++ csv_string.

Definition cleaning_request (issues csv_string : str) : request :=
  Request llama (lit "user") (cleaning_prompt issues csv_string) (2, -1)%Z 4000.

(** Lines 147-153: removal of the markdown fence, then [strip]. *)
Definition unfence_csv (cleaned_csv : str) : outcome str :=
  and_then
    (if contains cleaned_csv (lit "```csv") then
       and_then (item (split cleaned_csv (lit "```csv")) 1) (fun after =>
       item (split after (lit "```")) 0)
     else if contains cleaned_csv (lit "```") then
       let lines := split cleaned_csv nl in
       Ok (join nl (filter (fun l => negb (startswith (strip l) (lit "```"))) lines))
     else Ok cleaned_csv)
    (fun cleaned_csv => Ok (strip cleaned_csv)).

Definition clean_data (client : option groq) (df : DataFrame) (issues : json)
  : M (option str) :=
  match client with
  | None => ret None
  | Some c =>
      let csv_string := to_csv df in
      try_except
        (joined <- lift (str_join (lit ", ") issues) ;;
         cleaned_csv <- create c (cleaning_request joined csv_string) ;;
         cleaned_csv <- lift (unfence_csv cleaned_csv) ;;
         ret (Some cleaned_csv))
        (fun e => st (st_error (CleaningError e)) ;; ret None)
  end.

End Remote.

Section Page.

Context {L : Libraries}.

(** ** [load_file] *)

Definition load_file (f : uploaded_file) : M (option DataFrame) :=
  try_except
    (let file_extension := lower (last (split (name f) (lit ".")) []) in
     if str_eqb file_extension (lit "csv") then
       df <- lift (read_csv_file (data f)) ;; ret (Some df)
     else if str_eqb file_extension (lit "xlsx") || str_eqb file_extension (lit "xls") then
       df <- lift (read_excel (data f)) ;; ret (Some df)
     else
       st (st_error UnsupportedFormat) ;; ret None)
    (fun e => st (st_error (LoadError e)) ;; ret None).

(** The snippet shown by [st.code] when no client is available. *)
Definition set_key_help : string :=
  "export GROQ_API_KEY='your-key-here'  # Mac/Linux
set GROQ_API_KEY=your-key-here  # Windows".

(** The buttons pressed in the run being executed. *)
Record clicks := Clicks { analyze_clicked : bool; clean_clicked : bool }.

Fixpoint for_each {A} (items : list A) (body : A -> M unit) : M unit :=
  match items with
  | [] => ret tt
  | x :: rest => body x ;; for_each rest body
  end.

(** Lines 239-250: the four metrics. *)
Definition key_metrics (df : DataFrame) : M unit :=
  st (st_metric "Rows" (len df) None) ;;
  st (st_metric "Columns" (n_columns df) None) ;;
  st (st_metric "Missing Values" (missing_total df)
        (Some (Percent (missing_total df) (len df * n_columns df)))) ;;
  st (st_metric "Duplicates" (duplicates df) None).

(** Lines 255-268: the preview tab. *)
Definition preview_tab (df : DataFrame) : M unit :=
  st (st_markdown "Data Preview") ;;
  st (st_dataframe (head 20 df)) ;;
  st (st_column_info (column_info df)).

(** Lines 270-298: the visualization tab. *)
Definition visualization_tab (df : DataFrame) : M unit :=
  st (st_markdown "Data Quality Visualizations") ;;
  let '(fig_missing, fig_dtypes, fig_dist) := create_data_quality_viz df in
  match fig_missing with
  | Some fig => st (st_plotly_chart fig)
  | None => st (st_info NoMissingValues)
  end ;;
  st (st_plotly_chart fig_dtypes) ;;
  match fig_dist with
  | Some fig => st (st_plotly_chart fig)
  | None => ret tt
  end ;;
  let numeric := filter (fun c => is_number (snd c)) (columns df) in
  if 1 <? length numeric then st (st_plotly_chart (FigCorr (List.map fst numeric)))
  else ret tt.

(** Lines 307-313: the "Analyze Data Quality" button. *)
Definition on_analyze (client : option groq) (df : DataFrame) : M unit :=
  let sample := head 100 df in
  analysis <- analyze_data client sample ;;
  if truthy analysis then
    s <- get_session ;;
    set_session (Session (Some analysis) (stored_cleaned_data s) (stored_cleaned_df s))
  else ret tt.

(** Lines 315-340: display of the stored analysis. *)
Definition show_analysis (analysis : json) : M unit :=
  severity <- lift (dict_get analysis (lit "severity") (JStr (lit "medium"))) ;;
  color <- lift (severity_color severity) ;;
  summary <- lift (getitem analysis (lit "summary")) ;;
  st (st_info (DataQuality color summary)) ;;
  st (st_markdown "### Issues Found") ;;
  issues <- lift (and_then (getitem analysis (lit "issues")) py_iter) ;;
  for_each (enumerate 1 issues)
    (fun p => st (st_warning (IssueLine (fst p) (snd p)))) ;;
  st (st_markdown "### Recommendations") ;;
  recs <- lift (and_then (getitem analysis (lit "recommendations")) py_iter) ;;
  for_each (enumerate 1 recs)
    (fun p => st (st_info (RecommendationLine (fst p) (snd p)))) ;;
  st (st_markdown "---").

(** Lines 342-354: the "Clean Data Now" button. *)
Definition on_clean (client : option groq) (df : DataFrame) (analysis : json) : M unit :=
  issues <- lift (getitem analysis (lit "issues")) ;;
  cleaned_csv <- clean_data client df issues ;;
  match cleaned_csv with
  | Some cleaned_csv =>
      if truthy_str cleaned_csv then
        try_except
          (s <- get_session ;;
           set_session (Session (stored_analysis s) (Some cleaned_csv) (stored_cleaned_df s)) ;;
           cleaned_df <- lift (read_csv cleaned_csv) ;;
           s <- get_session ;;
           set_session (Session (stored_analysis s) (stored_cleaned_data s) (Some cleaned_df)) ;;
           st (st_success CleanedOk) ;;
           st st_balloons)
          (fun e => st (st_error (ParseCleanedError e)))
      else ret tt
  | None => ret tt
  end.

End Page.

Section Main.

Context {L : Libraries}.

(** Lines 356-390: the cleaned table, once one is stored. *)
Definition show_cleaned (f : uploaded_file) (df cleaned_df : DataFrame) : M unit :=
  st (st_markdown "---") ;;
  st (st_markdown "Cleaned Data") ;;
  st (st_metric "Rows" (len cleaned_df)
        (Some (Change (Z.of_nat (len cleaned_df) - Z.of_nat (len df))))) ;;
  st (st_metric "Columns" (n_columns cleaned_df) None) ;;
  let new_missing := missing_total cleaned_df in
  st (st_metric "Missing Values" new_missing
        (Some (Change (- (Z.of_nat (missing_total df) - Z.of_nat new_missing))))) ;;
  let new_duplicates := duplicates cleaned_df in
  st (st_metric "Duplicates" new_duplicates
        (Some (Change (- (Z.of_nat (duplicates df) - Z.of_nat new_duplicates))))) ;;
  st (st_dataframe (head 20 cleaned_df)) ;;
  s <- get_session ;;
  match stored_cleaned_data s with
  | Some text =>
      (* uploaded_file.name.rsplit('.', 1)[0] *)
      let stem := match rindex (name f) (lit ".") with
                  | Some i => firstn i (name f)
                  | None => name f
                  end in
      st (st_download_button text (lit "cleaned_" ++ stem ++ lit ".csv"))
  | None => lift (Raise (Exn KeyError (lit "cleaned_data")))
  end.

(** Lines 300-390: the analysis tab. *)
Definition analysis_tab (client : option groq) (f : uploaded_file)
    (df : DataFrame) (b : clicks) : M unit :=
  st (st_markdown "AI-Powered Analysis") ;;
  match client with
  | None =>
      st (st_warning PleaseSetKey) ;;
      st (st_code set_key_help)
  | Some _ =>
      (if analyze_clicked b then on_analyze client df else ret tt) ;;
      s <- get_session ;;
      match stored_analysis s with
      | None => ret tt
      | Some analysis =>
          show_analysis analysis ;;
          (if clean_clicked b then on_clean client df analysis else ret tt) ;;
          s <- get_session ;;
          match stored_cleaned_df s with
          | Some cleaned_df => show_cleaned f df cleaned_df
          | None => ret tt
          end
      end
  end.

(** Lines 392-434: the welcome screen, shown while no file is uploaded. *)
Definition welcome (client : option groq) : M unit :=
  st (st_markdown "Welcome to AI Data Cleaning Assistant!") ;;
  st (st_markdown "Analysis") ;;
  st (st_markdown "Cleaning") ;;
  st (st_markdown "---") ;;
  st (st_info GetStarted) ;;
  match client with
  | None => st (st_warning ApiKeyRequired)
  | Some _ => ret tt
  end.

(** Lines 436-495: the sidebar. *)
Definition sidebar (client : option groq) : M unit :=
  st (st_markdown "About This Tool") ;;
  st (st_markdown "What is Groq?") ;;
  st (st_markdown "---") ;;
  st (st_markdown "Tech Stack") ;;
  st (st_markdown "---") ;;
  st (st_markdown "Quick Setup") ;;
  match client with
  | None => st (st_error ApiKeyMissing) ;; st (st_markdown "Get your free API key")
  | Some _ => st (st_success ApiKeyConfigured)
  end.

(** Lines 224-434, for a client already obtained. *)
Definition main (client : option groq) (uploaded : option uploaded_file)
    (b : clicks) : M unit :=
  match uploaded with
  | Some f =>
      df <- load_file f ;;
      match df with
      | Some df =>
          st (st_success (FileLoaded (name f))) ;;
          key_metrics df ;;
          preview_tab df ;;
          visualization_tab df ;;
          analysis_tab client f df b
      | None => ret tt
      end
  | None => welcome client
  end ;;
  sidebar client.

(** One run of the script from the top. *)
Definition script (env : environ) (uploaded : option uploaded_file)
    (b : clicks) : M unit :=
  st (st_markdown "style") ;;
  st (st_markdown "AI Data Cleaning Assistant") ;;
  st (st_markdown "Upload CSV or Excel files and let AI clean your data - Powered by Groq") ;;
  client <- get_client env ;;
  main client uploaded b.

End Main.

(* ================================================================== *)
(** * Reference instances of the library functions *)
(* ================================================================== *)

(** Executable stand-ins for the libraries, used to run the script on
    concrete inputs.  [Ref.loads] decodes the JSON grammar of Python's
    [json] module.  [Ref.parse_csv] and [Ref.write_csv] cover plain
    comma-separated text: one record per line, no quoting, no type
    inference, the empty field as the only null.  The remote endpoint is a
    stub that answers from a given function. *)
Module Ref.

Definition json_ws (c : N) : bool :=
  ((c =? 32) || (c =? 9) || (c =? 10) || (c =? 13))%N.

Fixpoint skip_ws (s : str) : str :=
  match s with
  | c :: r => if json_ws c then skip_ws r else s
  | [] => []
  end.

Definition is_digit (c : N) : bool := ((48 <=? c) && (c <=? 57))%N.

Fixpoint span_digits (s : str) : list N * str :=
  match s with
  | c :: r =>
      if is_digit c then let (ds, rest) := span_digits r in (c :: ds, rest)
      else ([], s)
  | [] => ([], [])
  end.

Definition digits_value (ds : list N) : Z :=
  fold_left (fun acc d => (acc * 10 + Z.of_N (d - 48))%Z) ds 0%Z.

Definition hexval (c : N) : option N :=
  if is_digit c then Some (c - 48)%N
  else if ((97 <=? c) && (c <=? 102))%N then Some (c - 87)%N
  else if ((65 <=? c) && (c <=? 70))%N then Some (c - 55)%N
  else None.

Definition hex4 (a b c d : N) : option N :=
  match hexval a, hexval b, hexval c, hexval d with
  | Some x, Some y, Some z, Some w => Some (((x * 16 + y) * 16 + z) * 16 + w)%N
  | _, _, _, _ => None
  end.

(** The code point of a surrogate pair written as two [\u] escapes. *)
Definition surrogate_pair (hi b u l1 l2 l3 l4 : N) : option N :=
  if ((55296 <=? hi) && (hi <=? 56319) && (b =? 92) && (u =? 117))%N then
    match hex4 l1 l2 l3 l4 with
    | Some lo =>
        if ((56320 <=? lo) && (lo <=? 57343))%N
        then Some (65536 + (hi - 55296) * 1024 + (lo - 56320))%N
        else None
    | None => None
    end
  else None.

Definition simple_escape (e : N) : option N :=
  if (e =? 34)%N then Some 34%N else if (e =? 92)%N then Some 92%N
  else if (e =? 47)%N then Some 47%N else if (e =? 98)%N then Some 8%N
  else if (e =? 102)%N then Some 12%N else if (e =? 110)%N then Some 10%N
  else if (e =? 114)%N then Some 13%N else if (e =? 116)%N then Some 9%N
  else None.

(** The rest of a string literal after its opening quote: the decoded
    text and what follows the closing quote. *)
Fixpoint scan_string (s : str) (acc : str) : option (str * str) :=
  match s with
  | [] => None
  | c :: r =>
      if (c =? 34)%N then Some (rev acc, r)
      else if (c =? 92)%N then
        match r with
        | [] => None
        | e :: r1 =>
            if (e =? 117)%N then
              match r1 with
              | h1 :: h2 :: h3 :: h4 :: r2 =>
                  match hex4 h1 h2 h3 h4 with
                  | None => None
                  | Some u =>
                      match r2 with
                      | b :: u' :: l1 :: l2 :: l3 :: l4 :: r3 =>
                          match surrogate_pair u b u' l1 l2 l3 l4 with
                          | Some cp => scan_string r3 (cp :: acc)
                          | None => scan_string r2 (u :: acc)
                          end
                      | _ => scan_string r2 (u :: acc)
                      end
                  end
              | _ => None
              end
            else
              match simple_escape e with
              | Some x => scan_string r1 (x :: acc)
              | None => None
              end
        end
      else if (c <? 32)%N then None
      else scan_string r (c :: acc)
  end.

(** A number: an optional minus sign, an integer part (a single zero, or
    digits not starting with zero), an optional fraction (a dot and at
    least one digit) and an optional exponent (e or E, an optional sign,
    at least one digit).  It is an [int] when it has neither fraction nor
    exponent. *)
Definition parse_number (s : str) : option (json * str) :=
  let (negative, s1) :=
    match s with
    | c :: r => if (c =? 45)%N then (true, r) else (false, s)
    | [] => (false, s)
    end in
  let sign := fun z : Z => if negative then (- z)%Z else z in
  let int_part :=
    match s1 with
    | c :: r =>
        if (c =? 48)%N then Some ([c], r)
        else if is_digit c then Some (span_digits s1)
        else None
    | [] => None
    end in
  match int_part with
  | None => None
  | Some (ds, r) =>
      let (fs, r1) :=
        match r with
        | c :: r' =>
            if (c =? 46)%N then
              match span_digits r' with
              | ([], _) => ([], r)
              | (fs, rest) => (fs, rest)
              end
            else ([], r)
        | [] => ([], r)
        end in
      let (ex, r2) :=
        match r1 with
        | c :: r' =>
            if ((c =? 101) || (c =? 69))%N then
              let (eneg, r'') :=
                match r' with
                | c' :: t => if (c' =? 45)%N then (true, t)
                             else if (c' =? 43)%N then (false, t) else (false, r')
                | [] => (false, r')
                end in
              match span_digits r'' with
              | ([], _) => (None, r1)
              | (es, rest) =>
                  (Some (if eneg then (- digits_value es)%Z else digits_value es), rest)
              end
            else (None, r1)
        | [] => (None, r1)
        end in
      match fs, ex with
      | [], None => Some (JInt (sign (digits_value ds)), r2)
      | _, _ =>
          let e := match ex with Some e => e | None => 0%Z end in
          Some (JFloat (sign (digits_value (ds ++ fs)))
                       (e - Z.of_nat (length fs))%Z, r2)
      end
  end.

(** [d[k] = v] on the members of a dict under construction. *)
Fixpoint dict_set (members : list (str * json)) (k : str) (v : json)
  : list (str * json) :=
  match members with
  | [] => [(k, v)]
  | (k', v') :: rest =>
      if str_eqb k' k then (k', v) :: rest else (k', v') :: dict_set rest k v
  end.

(** A JSON value at the head of [s] and the text after it.  The three
    functions call each other along the nesting and the member lists of
    the text; [fuel] bounds the length of such a chain. *)
Fixpoint parse_value (fuel : nat) (s : str) : option (json * str) :=
  match fuel with
  | O => None
  | S fuel' =>
      match s with
      | [] => None
      | c :: r =>
          if (c =? 34)%N then
            match scan_string r [] with
            | Some (x, rest) => Some (JStr x, rest)
            | None => None
            end
          else if (c =? 123)%N then
            match skip_ws r with
            | c' :: r' =>
                if (c' =? 125)%N then Some (JObj [], r')
                else parse_members fuel' (c' :: r') []
            | [] => None
            end
          else if (c =? 91)%N then
            match skip_ws r with
            | c' :: r' =>
                if (c' =? 93)%N then Some (JArr [], r')
                else parse_elements fuel' (c' :: r') []
            | [] => None
            end
          else if startswith s (lit "null") then Some (JNull, skipn 4 s)
          else if startswith s (lit "true") then Some (JBool true, skipn 4 s)
          else if startswith s (lit "false") then Some (JBool false, skipn 5 s)
          else
            match parse_number s with
            | Some x => Some x
            | None =>
                if startswith s (lit "NaN") then Some (JNaN, skipn 3 s)
                else if startswith s (lit "Infinity") then Some (JInf false, skipn 8 s)
                else if startswith s (lit "-Infinity") then Some (JInf true, skipn 9 s)
                else None
            end
      end
  end

with parse_members (fuel : nat) (s : str) (acc : list (str * json))
  : option (json * str) :=
  match fuel with
  | O => None
  | S fuel' =>
      match s with
      | c :: r =>
          if (c =? 34)%N then
            match scan_string r [] with
            | Some (k, r1) =>
                match skip_ws r1 with
                | c2 :: r2 =>
                    if (c2 =? 58)%N then
                      match parse_value fuel' (skip_ws r2) with
                      | Some (v, r3) =>
                          match skip_ws r3 with
                          | c4 :: r4 =>
                              if (c4 =? 125)%N then Some (JObj (dict_set acc k v), r4)
                              else if (c4 =? 44)%N then
                                parse_members fuel' (skip_ws r4) (dict_set acc k v)
                              else None
                          | [] => None
                          end
                      | None => None
                      end
                    else None
                | [] => None
                end
            | None => None
            end
          else None
      | [] => None
      end
  end

with parse_elements (fuel : nat) (s : str) (acc : list json)
  : option (json * str) :=
  match fuel with
  | O => None
  | S fuel' =>
      match parse_value fuel' s with
      | Some (v, r1) =>
          match skip_ws r1 with
          | c :: r2 =>
              if (c =? 93)%N then Some (JArr (acc ++ [v]), r2)
              else if (c =? 44)%N then parse_elements fuel' (skip_ws r2) (acc ++ [v])
              else None
          | [] => None
          end
      | None => None
      end
  end.

(** [json.loads]: one value, surrounded by JSON whitespace only. *)
Definition loads (s : str) : outcome json :=
  match parse_value (2 * length s + 2) (skip_ws s) with
  | Some (v, rest) =>
      match skip_ws rest with
      | [] => Ok v
      | _ :: _ => Raise (Exn JSONDecodeError (lit "Extra data"))
      end
  | None => Raise (Exn JSONDecodeError (lit "Expecting value"))
  end.

(** The reference reader does no type inference: one dtype. *)
Inductive plain := untyped.

(** A line of spaces and tabs only is skipped like an empty one. *)
Definition blank (line : str) : bool :=
  forallb (fun c => ((c =? 32) || (c =? 9))%N) line.

Definition fields (line : str) : list str := split line (lit ",").

Definition cell (field : str) : option str :=
  match field with [] => None | _ => Some field end.

(** [pd.read_csv] on plain text.  The first line names the columns.  The
    first record fixes the width of the table (fields beyond the header
    are index columns); a later record with more fields is an error, a
    shorter one is padded with nulls. *)
Definition parse_csv (text : str) : outcome (table str plain) :=
  match filter (fun l => negb (blank l)) (split text nl) with
  | [] => Raise (Exn OtherException (lit "No columns to parse from file"))
  | header :: records =>
      let names := fields header in
      let recs := List.map fields records in
      let width :=
        match recs with
        | r :: _ => Nat.max (length names) (length r)
        | [] => length names
        end in
      if existsb (fun r => width <? length r) recs then
        Raise (Exn OtherException (lit "Error tokenizing data"))
      else
        let index_columns := width - length names in
        Ok (Table (List.map (fun n => (n, untyped)) names)
              (List.map (fun r =>
                 List.map cell
                   (skipn index_columns (r ++ repeat [] (width - length r))))
                 recs))
  end.

(** [df.to_csv(index=False)]: the header line and one line per row. *)
Definition write_csv (df : table str plain) : str :=
  let line := fun cells : list str => join (lit ",") cells ++ nl in
  line (List.map fst (columns df)) ++
  concat (List.map (fun r =>
            line (List.map (fun c => match c with Some x => x | None => [] end) r))
          (rows df)).

(** The libraries, with the remote endpoint answering by [reply]. *)
Definition libraries (reply : groq -> request -> outcome str) : Libraries :=
  {| value := str;
     value_eq_dec := list_eq_dec N.eq_dec;
     dtype := plain;
     is_number := fun _ => false;
     json_loads := loads;
     read_csv := parse_csv;
     read_csv_file := parse_csv;
     read_excel := fun _ => Raise (Exn OtherException (lit "no Excel reader"));
     to_csv := write_csv;
     new_client := fun k => Ok (Groq k);
     chat_completion := reply |}.

(** A stub endpoint that answers every request with [text]. *)
Definition always (text : str) : groq -> request -> outcome str :=
  fun _ _ => Ok text.

(** An empty page, nothing sent, an empty session. *)
Definition fresh : world str plain := World [] [] (Session None None None).

Definition a_client : groq := Groq (lit "gsk_test").


(** A two-column table with one null and one repeated row. *)
Definition sample_table : table str plain :=
  Table [(lit "a", untyped); (lit "b", untyped)]
        [[Some (lit "1"); Some (lit "2")];
         [Some (lit "3"); None];
         [Some (lit "1"); Some (lit "2")]].

(** That table as an uploaded CSV file. *)
Definition sample_file : uploaded_file :=
  Upload (lit "data.csv") (write_csv sample_table).

End Ref.

(* ================================================================== *)
(** * Notions used to state the properties *)
(* ================================================================== *)

Module Spec.

(** [sub] occurs in [s] at index [j]. *)
Definition occurs_at (s sub : str) (j : nat) : bool := startswith (skipn j s) sub.

(** [t] is a run of consecutive characters of [s]. *)
Definition infix (t s : str) : Prop := exists a b, s = a ++ t ++ b.

Definition fence : str := lit "```".
Definition backtick : str := lit "`".
Definition csv_marker : str := fence ++ lit "csv".
Definition lbrace : str := lit "{".
Definition rbrace : str := lit "}".

(** "A brace pair": an opening brace with a closing brace somewhere after
    it. *)
Definition brace_pair (s : str) : Prop :=
  exists i j, i < j /\ occurs_at s lbrace i = true /\ occurs_at s rbrace j = true.

(** The part of [s] before the first occurrence of [marker] (all of [s]
    when there is none), and the part after that occurrence. *)
Definition before (s marker : str) : str :=
  match index s marker with
  | Some i => firstn i s
  | None => s
  end.

Definition after (s marker : str) : str :=
  match index s marker with
  | Some i => skipn (i + length marker) s
  | None => []
  end.

(** "The substring between the first fence pair": the text between the
    first occurrence of the opening marker and the next occurrence of the
    closing marker after it, when both exist. *)
Definition between (s opening closing : str) : option str :=
  match index s opening with
  | None => None
  | Some _ =>
      match index (after s opening) closing with
      | Some j => Some (firstn j (after s opening))
      | None => None
      end
  end.

(** The text the analysis parser works on after its fence step: inside
    the first JSON-labelled fence if there is one (cut at the next such
    label, then at the first fence), else inside the first fence, else the
    whole reply. *)
Definition json_block (text : str) : str :=
  if contains text (fence ++ lit "json") then
    before (before (after text (fence ++ lit "json")) (fence ++ lit "json")) fence
  else if contains text fence then before (after text fence) fence
  else text.

(** A line of a reply that is a fence: its stripped content starts with
    three backticks. *)
Definition fence_line (line : str) : bool := startswith (strip line) (lit "```").

Definition all_space (s : str) : bool := forallb isspace s.

(** A text that does not begin with whitespace. *)
Definition clean_head (s : str) : Prop :=
  match s with
  | [] => True
  | c :: _ => isspace c = false
  end.

Section Rows.
Context {L : Libraries}.


(** The widgets a computation draws on an empty page. *)
Definition drawn (m : M unit) : list (widget value dtype) :=
  page (snd (m (World [] [] (Session None None None)))).

(** [m] only draws: it ends normally, appends the widgets [l] to the page
    and leaves the requests and the session alone. *)
Definition draws (m : M unit) (l : list (widget value dtype)) : Prop :=
  forall w, m w = (Ok tt, World (page w ++ l) (sent w) (session w)).

(** [m] contacts nobody and stores nothing: whatever it returns, the
    requests sent and the session are as before. *)
Definition quiet {A} (m : M A) : Prop :=
  forall w, sent (snd (m w)) = sent w /\ session (snd (m w)) = session w.

Definition indicator (b : bool) : nat := if b then 1 else 0.

(** The null cells of a list of rows, counted row by row. *)
Definition null_cells (rs : list (list (option value))) : nat :=
  list_sum (List.map (fun r => length (filter is_null r)) rs).

(** Every row has one cell per column. *)
Definition rectangular (df : DataFrame) : Prop :=
  Forall (fun r => length r = n_columns df) (rows df).

(** The rows [df.duplicated()] does not flag, in order: what remains when
    the flagged rows are dropped. *)
Definition unflagged (rs : list (list (option value))) (flags : list bool)
  : list (list (option value)) :=
  List.map fst (filter (fun p => negb (snd p)) (combine rs flags)).

Definition row_eq_dec (r1 r2 : list (option value)) : {r1 = r2} + {r1 <> r2}.
Proof.
  apply list_eq_dec. intros a b. destruct a as [x|], b as [y|].
  - destruct (value_eq_dec x y); [left; congruence | right; congruence].
  - right; discriminate.
  - right; discriminate.
  - now left.
Defined.

End Rows.

End Spec.

(* ================================================================== *)
(** * The string operations and the reference instances on samples *)
(* ================================================================== *)

Example split_samples :
  split (lit "a```b```c") (lit "```") = [lit "a"; lit "b"; lit "c"]
  /\ split (lit "````") (lit "```") = [[]; lit "`"]
  /\ split (lit "abc") (lit ".") = [lit "abc"]
  /\ split [] (lit ".") = [[]]
  /\ split (lit "a.") (lit ".") = [lit "a"; []].
Proof. vm_compute. repeat split. Qed.

Example find_strip_slice_samples :
  find (lit "x{y}z}") (lit "{") = 1%Z
  /\ rfind (lit "x{y}z}") (lit "}") = 5%Z
  /\ find (lit "xyz") (lit "{") = (-1)%Z
  /\ slice (lit "x{y}z}") 1 6 = lit "{y}z}"
  /\ strip (lit "  a b
") = lit "a b"
  /\ join (lit ", ") [lit "a"; lit "b"] = lit "a, b".
Proof. vm_compute. repeat split. Qed.

Example loads_samples :
  Ref.loads (dq "{'a': [1, 2.5e3, true, null], 'b': {'c': 'x\ny'}, 'a': -0}")
  = Ok (JObj [(lit "a", JInt 0); (lit "b", JObj [(lit "c", JStr [120; 10; 121]%N)])])
  /\ Ref.loads (lit "[1]") = Ok (JArr [JInt 1])
  /\ Ref.loads (lit " 1 ") = Ok (JInt 1)
  /\ Ref.loads (lit "1`") = Raise (Exn JSONDecodeError (lit "Extra data"))
  /\ Ref.loads (lit "[1,]") = Raise (Exn JSONDecodeError (lit "Expecting value"))
  /\ Ref.loads (lit "01") = Raise (Exn JSONDecodeError (lit "Extra data"))
  /\ Ref.loads (dq "{'a':1} x") = Raise (Exn JSONDecodeError (lit "Extra data")).
Proof. vm_compute. repeat split. Qed.

Example csv_samples :
  Ref.parse_csv (Ref.write_csv Ref.sample_table) = Ok Ref.sample_table
  /\ Ref.write_csv Ref.sample_table = lit "a,b
1,2
3,
1,2
"
  /\ Ref.parse_csv (lit "a,b
1,2
3,4,5") = Raise (Exn OtherException (lit "Error tokenizing data")).
Proof. vm_compute. repeat split. Qed.

Example statistics_sample :
  let L := Ref.libraries (Ref.always []) in
  len Ref.sample_table = 3
  /\ n_columns Ref.sample_table = 2
  /\ missing_total Ref.sample_table = 1
  /\ duplicated Ref.sample_table = [false; false; true]
  /\ duplicates Ref.sample_table = 1.
Proof. vm_compute. repeat split. Qed.

(* ================================================================== *)
(** * Facts about the string operations *)
(* ================================================================== *)

Unset Implicit Arguments.

Module PyFacts.

Import Spec.

Lemma startswith_nil s : startswith s [] = true.
Proof. destruct s; reflexivity. Qed.

Lemma startswith_iff s p : startswith s p = true <-> exists r, s = p ++ r.
Proof.
  revert s; induction p as [|a p IH]; intros s; simpl.
  - split; [intros _; now exists s | reflexivity].
  - destruct s as [|b s].
    + split; [discriminate | intros [r Hr]; discriminate].
    + rewrite andb_true_iff, N.eqb_eq, IH. split.
      * intros [-> [r ->]]. now exists r.
      * intros [r Hr]. injection Hr as -> ->. split; [reflexivity | now exists r].
Qed.

Lemma startswith_app p r : startswith (p ++ r) p = true.
Proof. apply startswith_iff. now exists r. Qed.

Lemma startswith_app_l s r p : startswith s p = true -> startswith (s ++ r) p = true.
Proof.
  rewrite !startswith_iff. intros [t ->]. exists (t ++ r). now rewrite app_assoc.
Qed.

Lemma startswith_length s p : startswith s p = true -> length p <= length s.
Proof.
  rewrite startswith_iff. intros [r ->]. rewrite length_app. lia.
Qed.

Lemma occurs_at_0 s sub : occurs_at s sub 0 = startswith s sub.
Proof. reflexivity. Qed.

Lemma occurs_at_S c s sub j : occurs_at (c :: s) sub (S j) = occurs_at s sub j.
Proof. reflexivity. Qed.

Lemma occurs_at_length s sub j :
  sub <> [] -> occurs_at s sub j = true -> j < length s.
Proof.
  unfold occurs_at. intros Hne H. apply startswith_length in H.
  rewrite length_skipn in H. destruct sub; [congruence|]. simpl in H. lia.
Qed.

(** The index found is an occurrence, and the first one. *)
Lemma index_Some s sub i :
  index s sub = Some i <->
  occurs_at s sub i = true /\ i <= length s /\
  forall j, j < i -> occurs_at s sub j = false.
Proof.
  revert i; induction s as [|c s IH]; intros i.
  - simpl. destruct (startswith [] sub) eqn:E.
    + split.
      * intros [= <-]. repeat split; auto. intros j Hj; lia.
      * intros (H1 & H2 & H3). simpl in H2. assert (i = 0) by lia. now subst.
    + split; [discriminate|]. intros (H1 & H2 & _). simpl in H2.
      assert (i = 0) by lia. subst. unfold occurs_at in H1. simpl in H1. congruence.
  - cbn [index]. destruct (startswith (c :: s) sub) eqn:E.
    + split.
      * intros [= <-]. repeat split; auto; [simpl; lia | intros j Hj; lia].
      * intros (H1 & H2 & H3). destruct i; [reflexivity|].
        specialize (H3 0 ltac:(lia)). rewrite occurs_at_0 in H3. congruence.
    + case_eq (index s sub); [intros k Ek | intros Ek]; simpl.
      * split.
        -- intros [= <-]. apply (proj1 (IH k)) in Ek as (H1 & H2 & H3).
           repeat split; [now rewrite occurs_at_S | simpl; lia |].
           intros [|j] Hj; [now rewrite occurs_at_0 | rewrite occurs_at_S; apply H3; lia].
        -- intros (H1 & H2 & H3). destruct i.
           { rewrite occurs_at_0 in H1. congruence. }
           assert (index s sub = Some i) as Hi; [|congruence].
           apply IH. simpl in H2.
           repeat split; [now rewrite <- (occurs_at_S c) | lia |].
           intros j Hj. rewrite <- (occurs_at_S c). apply H3. lia.
      * split; [discriminate|]. intros (H1 & H2 & H3). destruct i.
        { rewrite occurs_at_0 in H1. congruence. }
        assert (index s sub = Some i) as Hi; [|congruence].
        apply IH. simpl in H2. repeat split; [now rewrite <- (occurs_at_S c) | lia |].
        intros j Hj. rewrite <- (occurs_at_S c). apply H3. lia.
Qed.

Lemma index_None s sub :
  index s sub = None <-> forall j, j <= length s -> occurs_at s sub j = false.
Proof.
  induction s as [|c s IH].
  - simpl. destruct (startswith [] sub) eqn:E.
    + split; [discriminate|]. intros H. specialize (H 0 (le_n _)).
      unfold occurs_at in H. simpl in H. congruence.
    + split; [|reflexivity]. intros _ j Hj. assert (j = 0) by lia. now subst.
  - cbn [index]. destruct (startswith (c :: s) sub) eqn:E.
    + split; [discriminate|]. intros H. specialize (H 0 ltac:(lia)).
      rewrite occurs_at_0 in H. congruence.
    + case_eq (index s sub); [intros k Ek | intros Ek]; simpl.
      * split; [discriminate|]. intros H.
        assert (index s sub = None) as X; [|congruence].
        apply IH. intros j Hj. rewrite <- (occurs_at_S c). apply H. simpl; lia.
      * split; [|reflexivity]. intros _ [|j] Hj; [assumption|].
        rewrite occurs_at_S. apply (proj1 IH); [assumption | simpl in Hj; lia].
Qed.

(** An occurrence splits the text around it. *)
Lemma occurs_at_split s sub j :
  occurs_at s sub j = true ->
  s = firstn j s ++ sub ++ skipn (j + length sub) s.
Proof.
  unfold occurs_at. rewrite startswith_iff. intros [r Hr].
  rewrite <- (firstn_skipn j s) at 1. f_equal.
  rewrite Nat.add_comm, <- skipn_skipn, Hr, skipn_app, skipn_all, Nat.sub_diag.
  reflexivity.
Qed.

Lemma occurs_at_app s pre sub r :
  s = pre ++ sub ++ r -> occurs_at s sub (length pre) = true.
Proof.
  intros ->. unfold occurs_at. rewrite skipn_app, skipn_all, Nat.sub_diag. simpl.
  apply startswith_app.
Qed.

Lemma occurs_at_prefix a b sub j :
  occurs_at a sub j = true -> occurs_at (a ++ b) sub j = true.
Proof.
  unfold occurs_at. intros H. rewrite skipn_app. now apply startswith_app_l.
Qed.

Lemma occurs_at_firstn s sub i j :
  occurs_at (firstn i s) sub j = true -> occurs_at s sub j = true.
Proof.
  intros H. rewrite <- (firstn_skipn i s). now apply occurs_at_prefix.
Qed.

Lemma occurs_at_in_firstn s sub i j :
  occurs_at s sub j = true -> j + length sub <= i ->
  occurs_at (firstn i s) sub j = true.
Proof.
  unfold occurs_at. rewrite !startswith_iff. intros [r Hr] Hle.
  exists (firstn (i - j - length sub) r).
  rewrite skipn_firstn_comm, Hr, firstn_app, firstn_all2 by lia.
  reflexivity.
Qed.

Lemma occurs_at_skipn s sub k j :
  occurs_at (skipn k s) sub j = occurs_at s sub (k + j).
Proof. unfold occurs_at. now rewrite skipn_skipn, Nat.add_comm. Qed.

Lemma index_nil_sep sub : sub <> [] -> index [] sub = None.
Proof. destruct sub; [congruence | reflexivity]. Qed.

Lemma index_lt s sub i : sub <> [] -> index s sub = Some i -> i + length sub <= length s.
Proof.
  intros Hne H. apply index_Some in H as (H & _ & _).
  unfold occurs_at in H. apply startswith_length in H.
  rewrite length_skipn in H. destruct sub; [congruence|]. simpl in *. lia.
Qed.

(** ** [split] *)

Lemma split_fuel_enough sep : sep <> [] ->
  forall n m s, length s <= n -> length s <= m ->
  split_fuel n s sep = split_fuel m s sep.
Proof.
  intros Hne. induction n as [|n IH]; intros m s Hn Hm.
  - destruct s; [|simpl in Hn; lia]. pose proof (index_nil_sep sep Hne) as E0.
    destruct m; cbn [split_fuel]; now rewrite E0.
  - cbn [split_fuel]. destruct (index s sep) as [i|] eqn:E.
    + pose proof (index_lt s sep i Hne E) as Hi.
      assert (0 < length sep) by (destruct sep; [congruence | simpl; lia]).
      destruct m as [|m]; [lia|]. cbn [split_fuel]. rewrite E. f_equal.
      apply IH; rewrite length_skipn; lia.
    + destruct m; cbn [split_fuel]; now rewrite E.
Qed.

Lemma split_none s sep : index s sep = None -> split s sep = [s].
Proof. unfold split. intros H. destruct (length s); cbn [split_fuel]; now rewrite H. Qed.

Lemma split_some s sep i :
  sep <> [] -> index s sep = Some i ->
  split s sep = firstn i s :: split (skipn (i + length sep) s) sep.
Proof.
  intros Hne H. unfold split. pose proof (index_lt s sep i Hne H) as Hi.
  assert (0 < length sep) by (destruct sep; [congruence | simpl; lia]).
  destruct (length s) as [|n] eqn:En; [lia|]. cbn [split_fuel]. rewrite H. f_equal.
  apply split_fuel_enough; auto; rewrite length_skipn; lia.
Qed.

Lemma split_not_nil s sep : split s sep <> [].
Proof.
  unfold split. destruct (length s); cbn [split_fuel]; destruct (index s sep); discriminate.
Qed.

Lemma contains_index s sub : contains s sub = true <-> exists i, index s sub = Some i.
Proof.
  unfold contains. destruct (index s sub) as [i|].
  - split; [now exists i | reflexivity].
  - split; [discriminate | intros [i Hi]; discriminate].
Qed.

Lemma contains_false s sub : contains s sub = false <-> index s sub = None.
Proof. unfold contains. destruct (index s sub); split; congruence. Qed.

(** The pieces [0] and [1] of a split. *)
Lemma item_split_0 s sep : sep <> [] -> item (split s sep) 0 = Ok (before s sep).
Proof.
  intros Hne. unfold before. destruct (index s sep) as [i|] eqn:E.
  - now rewrite (split_some s sep i Hne E).
  - now rewrite (split_none s sep E).
Qed.

Lemma item_split_1 s sep :
  sep <> [] -> contains s sep = true ->
  item (split s sep) 1 = Ok (before (after s sep) sep).
Proof.
  intros Hne H. apply contains_index in H as [i E].
  rewrite (split_some s sep i Hne E). unfold after. rewrite E.
  unfold item. simpl. pose proof (item_split_0 (skipn (i + length sep) s) sep Hne) as H0.
  unfold item in H0. simpl in H0. exact H0.
Qed.

(** No occurrence of the marker lies inside the part before its first
    occurrence. *)
Lemma index_before s sep : sep <> [] -> index (before s sep) sep = None.
Proof.
  intros Hne. unfold before. destruct (index s sep) as [i|] eqn:E; [|assumption].
  apply index_None. intros j Hj.
  destruct (occurs_at (firstn i s) sep j) eqn:Ho; [|reflexivity].
  pose proof (occurs_at_length _ _ _ Hne Ho) as Hlt.
  apply index_Some in E as (_ & _ & Hfirst).
  rewrite <- (Hfirst j).
  - symmetry. now apply occurs_at_firstn with i.
  - rewrite length_firstn in Hlt. lia.
Qed.

Lemma before_before s sep : sep <> [] -> before (before s sep) sep = before s sep.
Proof.
  intros Hne. unfold before at 1. now rewrite index_before.
Qed.

(** An occurrence of a longer marker is an occurrence of its prefix. *)
Lemma occurs_at_longer s a b j : occurs_at s (a ++ b) j = true -> occurs_at s a j = true.
Proof.
  unfold occurs_at. rewrite !startswith_iff. intros [r Hr]. exists (b ++ r).
  now rewrite Hr, app_assoc.
Qed.

Lemma index_longer_None s a b : index s a = None -> index s (a ++ b) = None.
Proof.
  rewrite !index_None. intros H j Hj.
  destruct (occurs_at s (a ++ b) j) eqn:E; [|reflexivity].
  apply occurs_at_longer in E. rewrite H in E; [discriminate | assumption].
Qed.

(** Cutting at a labelled marker [a ++ b] and then at [a]: this is the
    cut at the first [a] unless the first [a ++ b] starts inside it. *)
Lemma before_labelled s a b :
  a <> [] ->
  (forall q p, index s a = Some q -> index s (a ++ b) = Some p ->
               p = q \/ q + length a <= p) ->
  before (before s (a ++ b)) a = before s a.
Proof.
  intros Hne Hov.
  destruct (index s a) as [q|] eqn:Eq.
  - assert (before s a = firstn q s) as Ha by (unfold before; now rewrite Eq).
    destruct (index s (a ++ b)) as [p|] eqn:Ep.
    + assert (before s (a ++ b) = firstn p s) as Hab by (unfold before; now rewrite Ep).
      rewrite Hab, Ha.
      destruct (Hov q p eq_refl eq_refl) as [-> | Hle].
      * rewrite <- Ha. now apply before_before.
      * assert (index (firstn p s) a = Some q) as Hq.
        { pose proof Eq as (Ho & Hl & Hfirst)%index_Some.
          apply index_Some. repeat split.
          - now apply occurs_at_in_firstn.
          - rewrite length_firstn. apply Nat.min_glb; [|assumption].
            assert (0 < length a) by (destruct a; [congruence | simpl; lia]). lia.
          - intros j Hj. destruct (occurs_at (firstn p s) a j) eqn:E; [|reflexivity].
            apply occurs_at_firstn in E. rewrite Hfirst in E; [discriminate | assumption]. }
        unfold before. rewrite Hq. rewrite firstn_firstn. f_equal.
        assert (0 < length a) by (destruct a; [congruence | simpl; lia]). lia.
    + assert (before s (a ++ b) = s) as Hab by (unfold before; now rewrite Ep).
      now rewrite Hab.
  - assert (before s (a ++ b) = s) as Hab.
    { unfold before. now rewrite (index_longer_None s a b Eq). }
    now rewrite Hab.
Qed.

(** ** Fences *)

Lemma fence_ne : fence <> [].
Proof. discriminate. Qed.

Lemma labelled_ne label : fence ++ label <> [].
Proof. discriminate. Qed.

Lemma fence_backticks s p k :
  occurs_at s fence p = true -> k < 3 -> occurs_at s backtick (p + k) = true.
Proof.
  unfold occurs_at. rewrite startswith_iff. intros [r Hr] Hk.
  rewrite Nat.add_comm, <- skipn_skipn, Hr.
  destruct k as [|[|[|k]]]; try lia; reflexivity.
Qed.

(** When the fence that closes a block is not followed by a further
    backtick, no labelled fence starts inside it. *)
Lemma no_overlap s label q p :
  index s fence = Some q ->
  index s (fence ++ label) = Some p ->
  startswith (after s fence) backtick = false ->
  p = q \/ q + length fence <= p.
Proof.
  intros Eq Ep Hnext.
  pose proof Eq as (Hoq & _ & Hfirst)%index_Some.
  pose proof Ep as (Hop & _ & _)%index_Some.
  apply occurs_at_longer in Hop.
  destruct (Nat.lt_ge_cases p q) as [Hlt | Hge].
  { rewrite (Hfirst p Hlt) in Hop. discriminate. }
  change (length fence) with 3.
  destruct (Nat.eq_dec p q) as [-> | Hne]; [now left|].
  destruct (Nat.lt_ge_cases p (q + 3)) as [Hin | Hout]; [|now right].
  exfalso. unfold after in Hnext. rewrite Eq in Hnext.
  change (length fence) with 3 in Hnext.
  pose proof (fence_backticks s p (q + 3 - p) Hop ltac:(lia)) as Hb.
  replace (p + (q + 3 - p)) with (q + 3) in Hb by lia.
  unfold occurs_at in Hb. congruence.
Qed.

(** The two-step cut of the script, [split(marker)[1].split(fence)[0]]. *)
Lemma cut_labelled text label :
  contains text (fence ++ label) = true ->
  and_then (item (split text (fence ++ label)) 1)
           (fun rest => item (split rest fence) 0)
  = Ok (before (before (after text (fence ++ label)) (fence ++ label)) fence).
Proof.
  intros H. rewrite (item_split_1 _ _ (labelled_ne label) H). simpl.
  apply item_split_0, fence_ne.
Qed.

Lemma cut_generic text :
  contains text fence = true ->
  and_then (item (split text fence) 1) (fun rest => item (split rest fence) 0)
  = Ok (before (after text fence) fence).
Proof.
  intros H. rewrite (item_split_1 _ _ fence_ne H). simpl.
  rewrite (item_split_0 _ _ fence_ne). f_equal. apply before_before, fence_ne.
Qed.

(** With a closing fence that no further backtick follows, the two-step
    cut is the text between the marker and that fence. *)
Lemma cut_labelled_between text label mid :
  between text (fence ++ label) fence = Some mid ->
  startswith (after (after text (fence ++ label)) fence) backtick = false ->
  before (before (after text (fence ++ label)) (fence ++ label)) fence = mid.
Proof.
  unfold between. intros Hb Hnext.
  destruct (index text (fence ++ label)) as [i|] eqn:Ei; [|discriminate].
  set (rest := after text (fence ++ label)) in *.
  destruct (index rest fence) as [j|] eqn:Ej; [|discriminate].
  injection Hb as <-.
  rewrite before_labelled.
  - unfold before. now rewrite Ej.
  - apply fence_ne.
  - intros q p Hq Hp. now apply (no_overlap rest label).
Qed.

Lemma cut_generic_between text mid :
  between text fence fence = Some mid ->
  before (after text fence) fence = mid.
Proof.
  unfold between. intros Hb.
  destruct (index text fence) as [i|] eqn:Ei; [|discriminate].
  destruct (index (after text fence) fence) as [j|] eqn:Ej; [|discriminate].
  injection Hb as <-. unfold before. now rewrite Ej.
Qed.

(** ** Single characters: [find] and [rfind] of a brace *)

Lemma startswith_single c s :
  startswith s [c] = true <-> exists r, s = c :: r.
Proof. rewrite startswith_iff. split; intros [r ->]; now exists r. Qed.

Lemma index_single_None c s : ~ In c s -> index s [c] = None.
Proof.
  induction s as [|a s IH]; intros Hn; [reflexivity|].
  cbn [index]. destruct (startswith (a :: s) [c]) eqn:E.
  - apply startswith_single in E as [r [= -> ->]]. exfalso. apply Hn. now left.
  - rewrite IH; [reflexivity|]. intros Hin. apply Hn. now right.
Qed.

Lemma index_single_In c s : index s [c] = None -> ~ In c s.
Proof.
  rewrite index_None. intros H Hin. apply in_split in Hin as (a & b & ->).
  specialize (H (length a)). rewrite (occurs_at_app (a ++ c :: b) a [c] b eq_refl) in H.
  rewrite length_app in H. simpl in H. assert (true = false) by (apply H; lia). discriminate.
Qed.

Lemma index_single c pre r :
  ~ In c pre -> index (pre ++ c :: r) [c] = Some (length pre).
Proof.
  induction pre as [|a pre IH]; intros Hn.
  - simpl. now rewrite N.eqb_refl.
  - change ((a :: pre) ++ c :: r) with (a :: (pre ++ c :: r)). cbn [index].
    destruct (startswith (a :: pre ++ c :: r) [c]) eqn:E.
    + apply startswith_single in E as [t [= -> _]]. exfalso. apply Hn. now left.
    + rewrite IH; [reflexivity|]. intros Hin. apply Hn. now right.
Qed.

Lemma rindex_single_None c s : ~ In c s -> rindex s [c] = None.
Proof.
  induction s as [|a s IH]; intros Hn; [reflexivity|].
  cbn [rindex]. rewrite IH by (intros Hin; apply Hn; now right).
  destruct (startswith (a :: s) [c]) eqn:E; [|reflexivity].
  apply startswith_single in E as [r [= -> ->]]. exfalso. apply Hn. now left.
Qed.

Lemma rindex_single c x post :
  ~ In c post -> rindex (x ++ c :: post) [c] = Some (length x).
Proof.
  intros Hn. induction x as [|a x IH].
  - cbn [app rindex]. rewrite (rindex_single_None c post Hn). simpl.
    now rewrite N.eqb_refl.
  - change ((a :: x) ++ c :: post) with (a :: (x ++ c :: post)). cbn [rindex].
    now rewrite IH.
Qed.

Lemma rindex_occurs s sub j : rindex s sub = Some j -> occurs_at s sub j = true.
Proof.
  revert j. induction s as [|a s IH]; intros j.
  - simpl. destruct (startswith [] sub) eqn:E; [|discriminate].
    intros [= <-]. exact E.
  - cbn [rindex]. destruct (rindex s sub) as [k|] eqn:Ek.
    + intros [= <-]. rewrite occurs_at_S. now apply IH.
    + destruct (startswith (a :: s) sub) eqn:E; [|discriminate].
      intros [= <-]. exact E.
Qed.

(** ** [strip] *)

Lemma lstrip_space ws s : all_space ws = true -> lstrip (ws ++ s) = lstrip s.
Proof.
  induction ws as [|a ws IH]; [reflexivity|]. simpl.
  intros [Ha Hws]%andb_true_iff. rewrite Ha. now apply IH.
Qed.

Lemma lstrip_nonspace pre c r :
  isspace c = false -> lstrip (pre ++ c :: r) = lstrip pre ++ c :: r.
Proof.
  intros Hc. induction pre as [|a pre IH]; simpl.
  - now rewrite Hc.
  - destruct (isspace a); [exact IH | reflexivity].
Qed.

Lemma rstrip_space s ws : all_space ws = true -> rstrip (s ++ ws) = rstrip s.
Proof.
  intros H. unfold rstrip. rewrite rev_app_distr, lstrip_space; [reflexivity|].
  unfold all_space in *. rewrite forallb_forall in *. intros x Hx. apply H.
  now apply in_rev.
Qed.

Lemma rstrip_nonspace x c post :
  isspace c = false -> rstrip (x ++ c :: post) = x ++ c :: rstrip post.
Proof.
  intros Hc. unfold rstrip. rewrite rev_app_distr. simpl rev at 1.
  rewrite <- app_assoc. simpl app at 2. rewrite (lstrip_nonspace _ _ _ Hc).
  rewrite rev_app_distr. simpl. rewrite rev_involutive, <- app_assoc. reflexivity.
Qed.

Lemma lstrip_suffix s : exists ws, s = ws ++ lstrip s /\ all_space ws = true.
Proof.
  induction s as [|a s (ws & Hs & Hws)]; [now exists []|].
  simpl. destruct (isspace a) eqn:Ha.
  - exists (a :: ws). simpl. rewrite Ha, Hws. split; [now f_equal | reflexivity].
  - now exists [].
Qed.

Lemma rstrip_prefix s : exists ws, s = rstrip s ++ ws /\ all_space ws = true.
Proof.
  unfold rstrip. destruct (lstrip_suffix (rev s)) as (ws & Hs & Hws).
  exists (rev ws). split.
  - rewrite <- rev_app_distr, <- Hs. now rewrite rev_involutive.
  - unfold all_space in *. rewrite forallb_forall in *. intros x Hx. apply Hws.
    now apply in_rev.
Qed.

Lemma strip_space a s b :
  all_space a = true -> all_space b = true -> strip (a ++ s ++ b) = strip s.
Proof.
  intros Ha Hb. unfold strip. rewrite (lstrip_space a _ Ha).
  destruct (lstrip_suffix s) as (ws & Hs & Hws).
  destruct (lstrip s) as [|c r] eqn:E.
  - rewrite app_nil_r in Hs. subst ws.
    rewrite (lstrip_space s b Hws).
    destruct (lstrip_suffix b) as (wb & Hwb & _).
    assert (all_space (lstrip b) = true) as Hl.
    { unfold all_space in *. rewrite forallb_forall in *. intros x Hx. apply Hb.
      rewrite Hwb. apply in_or_app. now right. }
    rewrite <- (app_nil_l (lstrip b)). now rewrite rstrip_space.
  - assert (isspace c = false) as Hc.
    { destruct s as [|x s']; [discriminate|].
      clear - E. induction (x :: s') as [|y l IH]; [discriminate|].
      simpl in E. destruct (isspace y) eqn:Hy; [now apply IH|]. now injection E as -> _. }
    rewrite Hs at 1. rewrite <- app_assoc, (lstrip_space ws _ Hws).
    change ((c :: r) ++ b) with ([] ++ c :: (r ++ b)).
    rewrite (lstrip_nonspace [] c (r ++ b) Hc). simpl.
    change (c :: r ++ b) with ((c :: r) ++ b). now apply rstrip_space.
Qed.

(** ** Runs of consecutive characters *)








Lemma infix_strip s : infix (strip s) s.
Proof.
  unfold strip. destruct (lstrip_suffix s) as (a & Ha & _).
  destruct (rstrip_prefix (lstrip s)) as (b & Hb & _).
  exists a, b. now rewrite <- Hb.
Qed.



(** The guard of the fallback holds exactly when the text has a brace
    pair. *)
Lemma guard_brace_pair t :
  let start := find t lbrace in
  let end_ := (rfind t rbrace + 1)%Z in
  negb (start =? -1)%Z && (end_ >? start)%Z = true -> brace_pair t.
Proof.
  intros start end_ H. apply andb_true_iff in H as [H1 H2].
  subst start end_. unfold find, rfind in *.
  destruct (index t lbrace) as [i|] eqn:Ei; [|discriminate].
  destruct (rindex t rbrace) as [j|] eqn:Ej; simpl in H2.
  - apply index_Some in Ei as (Hi & _ & _). apply rindex_occurs in Ej.
    exists i, j. repeat split; auto.
    apply Z.gtb_lt in H2.
    assert (i <> j).
    { intros ->. unfold occurs_at in *.
      apply startswith_single in Hi as [r Hr]. rewrite Hr in Ej.
      simpl in Ej. discriminate. }
    lia.
  - apply Z.gtb_lt in H2. lia.
Qed.

End PyFacts.

(* ================================================================== *)
(** * Parsing the analysis reply (specification 4.3) *)
(* ================================================================== *)

Section AnalysisParsing.

Context {L : Libraries}.
Import Spec PyFacts.

Lemma unfence_json_block text : unfence_json text = Ok (json_block text).
Proof.
  unfold unfence_json, json_block.
  change (lit "```json") with (fence ++ lit "json"). change (lit "```") with fence.
  destruct (contains text (fence ++ lit "json")) eqn:Ej.
  - now apply cut_labelled.
  - destruct (contains text fence) eqn:Ef; [now apply cut_generic | reflexivity].
Qed.

Lemma parse_analysis_unfold text (w : world_t) :
  parse_analysis text w =
  match json_loads (strip (json_block text)) with
  | Ok analysis => (Ok analysis, w)
  | Raise e =>
      match kind e with
      | JSONDecodeError => brace_fallback (strip (json_block text)) w
      | _ => (Raise e, w)
      end
  end.
Proof.
  unfold parse_analysis, bind, lift. rewrite unfence_json_block.
  destruct (json_loads (strip (json_block text))) as [v|e]; [reflexivity|].
  destruct (kind e); reflexivity.
Qed.

Lemma json_block_unfenced text : contains text fence = false -> json_block text = text.
Proof.
  intros Hf. unfold json_block. rewrite Hf.
  apply contains_false in Hf.
  pose proof (index_longer_None text fence (lit "json") Hf) as Hj.
  apply contains_false in Hj. now rewrite Hj.
Qed.

(** C3 (as amended).  The parser tries, in this order: the text inside the
    first JSON-labelled fence, else the text inside the first fence, else
    the whole reply; the chosen text is stripped and parsed strictly, and
    the brace fallback runs only when that strict parse fails.  Inside a
    JSON-labelled fence the chosen text is the text up to the closing
    fence provided no further backtick follows that fence. *)
Theorem parse_analysis_order (text : str) (w : world_t) :
  let labelled := fence ++ lit "json" in
  let chosen := json_block text in
  unfence_json text = Ok chosen
  /\ (contains text labelled = true ->
      forall mid, between text labelled fence = Some mid ->
        startswith (after (after text labelled) fence) backtick = false ->
        chosen = mid)
  /\ (contains text labelled = false -> contains text fence = true ->
      forall mid, between text fence fence = Some mid -> chosen = mid)
  /\ (contains text fence = false -> chosen = text)
  /\ (forall v, json_loads (strip chosen) = Ok v ->
      parse_analysis text w = (Ok v, w))
  /\ (forall e, json_loads (strip chosen) = Raise e ->
      kind e = JSONDecodeError ->
      parse_analysis text w = brace_fallback (strip chosen) w)
  /\ (forall e, json_loads (strip chosen) = Raise e ->
      kind e <> JSONDecodeError ->
      parse_analysis text w = (Raise e, w)).
Proof.
  intros labelled chosen. subst labelled chosen.
  split; [apply unfence_json_block|].
  split.
  { intros Hc mid Hb Hnext. unfold json_block. rewrite Hc.
    now apply cut_labelled_between. }
  split.
  { intros Hj Hf mid Hb. unfold json_block. rewrite Hj, Hf.
    now apply cut_generic_between. }
  split.
  { apply json_block_unfenced. }
  repeat split.
  - intros v Hv. now rewrite parse_analysis_unfold, Hv.
  - intros e He Hk. now rewrite parse_analysis_unfold, He, Hk.
  - intros e He Hk. rewrite parse_analysis_unfold, He.
    destruct (kind e); congruence.
Qed.

End AnalysisParsing.

(** C3, counterexample.  In this reply the first JSON-labelled fence is
    closed by the fence that follows the digit, so the text between the
    pair is the digit alone, which parses strictly.  The script cuts one
    character later, because the closing backticks run into a second
    labelled fence, and ends in the parse error. *)
Lemma parse_analysis_order_counterexample :
  let text := lit "```json1````json" in
  let L := Ref.libraries (Ref.always text) in
  Spec.between text (lit "```json") (lit "```") = Some (lit "1")
  /\ json_loads (strip (lit "1")) = Ok (JInt 1)
  /\ unfence_json text = Ok (lit "1`")
  /\ lit "1`" <> lit "1"
  /\ parse_analysis text Ref.fresh
     = (Ok JNull, World [st_error CouldNotParse] [] (Session None None None)).
Proof.
  vm_compute. repeat split; try reflexivity. discriminate.
Qed.

Section AnalyzeData.

Context {L : Libraries}.
Import Spec PyFacts.

Lemma slice_middle a m b :
  slice (a ++ m ++ b) (Z.of_nat (length a)) (Z.of_nat (length a + length m)) = m.
Proof.
  unfold slice, clamp. rewrite !length_app.
  destruct (Z.ltb_spec (Z.of_nat (length a)) 0); [lia|].
  destruct (Z.ltb_spec (Z.of_nat (length a + length m)) 0); [lia|].
  rewrite !Z.min_r, !Z.max_r by lia.
  replace (Z.of_nat (length a + length m) - Z.of_nat (length a))%Z
    with (Z.of_nat (length m)) by lia.
  rewrite !Nat2Z.id.
  rewrite skipn_app, skipn_all, Nat.sub_diag. simpl.
  rewrite firstn_app, firstn_all, Nat.sub_diag. simpl. apply app_nil_r.
Qed.





Lemma brace_fallback_no_pair t (w : world_t) :
  ~ brace_pair t ->
  brace_fallback t w
  = (Ok JNull, World (page w ++ [st_error CouldNotParse]) (sent w) (session w)).
Proof.
  intros Hn. unfold brace_fallback.
  change (lit "{") with lbrace. change (lit "}") with rbrace.
  destruct (negb (find t lbrace =? -1)%Z
            && (rfind t rbrace + 1 >? find t lbrace)%Z) eqn:G.
  - exfalso. apply Hn. now apply guard_brace_pair.
  - reflexivity.
Qed.

(** What [analyze_data] does with the reply [text] of the endpoint. *)
Lemma analyze_data_reply c df text (w : world_t) :
  chat_completion c (analysis_request (to_csv df)) = Ok text ->
  analyze_data (Some c) df w =
  let w1 := World (page w) (sent w ++ [analysis_request (to_csv df)]) (session w) in
  match parse_analysis text w1 with
  | (Ok v, w') => (Ok v, w')
  | (Raise e, w') =>
      (Ok JNull, World (page w' ++ [st_error (AnalysisError e)]) (sent w') (session w'))
  end.
Proof.
  intros H. unfold analyze_data, try_except, bind, create. rewrite H. simpl.
  destruct (parse_analysis text _) as [[v|e] w']; reflexivity.
Qed.


End AnalyzeData.


Ltac absent := simpl; intuition discriminate.



(* ================================================================== *)
(** * Display of the analysis and the cleaning handler *)
(* ================================================================== *)

Section Handlers.

Context {L : Libraries}.

(** An analysis object without a summary cannot be displayed: the lookup
    of the summary raises before anything is drawn (unless the colour
    lookup has already raised on an unhashable severity). *)
Lemma show_analysis_without_summary members (w : world_t) :
  dict_lookup members (lit "summary") = None ->
  exists e, show_analysis (JObj members) w = (Raise e, w)
            /\ (kind e = KeyError \/ kind e = TypeError).
Proof.
  intros Hs. unfold show_analysis, bind, lift, dict_get, getitem. rewrite Hs.
  destruct (dict_lookup members (lit "severity")) as [sev|].
  - destruct (severity_color sev) as [i|e] eqn:E.
    + eexists; split; [reflexivity | now left].
    + exists e. split; [reflexivity|]. right.
      unfold severity_color in E.
      destruct sev; try discriminate; try (injection E as <-; reflexivity).
      repeat match type of E with
             | context [if ?b then _ else _] => destruct b; try discriminate
             end.
  - eexists; split; [reflexivity | now left].
Qed.

(** The cleaning handler when the cleaned text does not parse: the text has
    already been stored under ['cleaned_data']; the stored table, the
    stored analysis and the loaded table are as before, and the error is
    shown. *)
Lemma on_clean_parse_failure client df analysis issues text e (w w1 : world_t) :
  getitem analysis (lit "issues") = Ok issues ->
  clean_data client df issues w = (Ok (Some text), w1) ->
  truthy_str text = true ->
  read_csv text = Raise e ->
  on_clean client df analysis w
  = (Ok tt,
     World (page w1 ++ [st_error (ParseCleanedError e)]) (sent w1)
           (Session (stored_analysis (session w1)) (Some text)
                    (stored_cleaned_df (session w1)))).
Proof.
  intros Hi Hc Ht Hr. unfold on_clean, bind, lift. rewrite Hi, Hc, Ht.
  unfold try_except, get_session, set_session. simpl. rewrite Hr. reflexivity.
Qed.

(** A reply that is empty once unfenced and stripped is dropped by the
    test [if cleaned_csv:]: nothing is stored and nothing is shown. *)
Lemma on_clean_empty_reply client df analysis issues (w w1 : world_t) :
  getitem analysis (lit "issues") = Ok issues ->
  clean_data client df issues w = (Ok (Some []), w1) ->
  on_clean client df analysis w = (Ok tt, w1).
Proof.
  intros Hi Hc. unfold on_clean, bind, lift. rewrite Hi, Hc. reflexivity.
Qed.

End Handlers.

(** C2.  The reply is a JSON object with only a severity.  It is stored
    (a non-empty dict is true) and its display raises [KeyError] on the
    summary: the exception leaves [analysis_tab], and with it the
    script. *)
Theorem display_raises_on_missing_summary :
  let text := dq "{'severity': 'high'}" in
  let L := Ref.libraries (Ref.always text) in
  let reply := JObj [(lit "severity", JStr (lit "high"))] in
  json_loads text = Ok reply
  /\ show_analysis reply Ref.fresh = (Raise (Exn KeyError (lit "summary")), Ref.fresh)
  /\ analysis_tab (Some Ref.a_client) (Upload (lit "data.csv") []) Ref.sample_table
       (Clicks true false) Ref.fresh
     = (Raise (Exn KeyError (lit "summary")),
        World [st_markdown "AI-Powered Analysis"]
              [analysis_request (to_csv (head 100 Ref.sample_table))]
              (Session (Some reply) None None)).
Proof.
  vm_compute. repeat split.
Qed.

(** C1.  A cleaned text and its table are stored from an earlier run.  The
    new reply has a record longer than the ones before it, so it does not
    parse.  The handler shows the error and keeps the stored table, the
    stored analysis and the loaded table, but the stored cleaned text is
    now the new, unparsable one. *)
Theorem on_clean_overwrites_cleaned_text :
  let text := lit "a,b
1,2
3,4,5" in
  let L := Ref.libraries (Ref.always text) in
  let analysis := JObj [(lit "summary", JStr (lit "ok"));
                        (lit "issues", JArr [JStr (lit "duplicates")]);
                        (lit "recommendations", JArr [])] in
  let old_text := lit "a,b
1,2" in
  let old_table := Table [(lit "a", Ref.untyped); (lit "b", Ref.untyped)]
                         [[Some (lit "1"); Some (lit "2")]] in
  let before := World [] [] (Session (Some analysis) (Some old_text) (Some old_table)) in
  let e := Exn OtherException (lit "Error tokenizing data") in
  let request := cleaning_request (lit "duplicates") (to_csv Ref.sample_table) in
  read_csv text = Raise e
  /\ on_clean (Some Ref.a_client) Ref.sample_table analysis before
     = (Ok tt,
        World [st_error (ParseCleanedError e)] [request]
              (Session (Some analysis) (Some text) (Some old_table)))
  /\ text <> old_text.
Proof.
  vm_compute. repeat split. discriminate.
Qed.

(* ================================================================== *)
(** * The analysis request (specification 4.3, input) *)
(* ================================================================== *)

Section AnalysisRequest.

Context {L : Libraries}.

Lemma brace_fallback_sent t (w : world_t) : sent (snd (brace_fallback t w)) = sent w.
Proof.
  unfold brace_fallback, bind, lift, ret, st.
  destruct (negb _ && _); [|reflexivity].
  destruct (json_loads _); reflexivity.
Qed.

Lemma parse_analysis_sent text (w : world_t) :
  sent (snd (parse_analysis text w)) = sent w.
Proof.
  rewrite parse_analysis_unfold.
  destruct (json_loads _) as [v|e]; [reflexivity|].
  destruct (kind e); try reflexivity. apply brace_fallback_sent.
Qed.

(** [analyze_data] with a client sends exactly one request, whatever the
    endpoint answers. *)
Lemma analyze_data_sent c sample (w : world_t) :
  sent (snd (analyze_data (Some c) sample w))
  = sent w ++ [analysis_request (to_csv sample)].
Proof.
  unfold analyze_data, try_except, bind, create.
  destruct (chat_completion c _) as [text|e]; simpl.
  - pose proof (parse_analysis_sent text
      (World (page w) (sent w ++ [analysis_request (to_csv sample)]) (session w))) as H.
    destruct (parse_analysis text _) as [[v|e] w']; simpl in *; exact H.
  - reflexivity.
Qed.

(** C8.  Pressing "Analyze Data Quality" on a table of [N] rows sends one
    request; its prompt is the fixed instruction followed by the CSV text
    of a sample; the sample has the columns of the table and exactly its
    first [min 100 N] rows, in order. *)
Theorem analysis_request_sample c (df : DataFrame) (w : world_t) :
  let sample := head 100 df in
  let request := analysis_request (to_csv sample) in
  sent (snd (on_analyze (Some c) df w)) = sent w ++ [request]
  /\ content request = analysis_prompt (to_csv sample)
  /\ (exists instruction, forall csv, analysis_prompt csv = instruction ++ csv)
  /\ columns sample = columns df
  /\ rows sample = firstn (Nat.min 100 (len df)) (rows df)
  /\ len sample = Nat.min 100 (len df)
  /\ (forall i, nth_error (rows sample) i
               = if i <? Nat.min 100 (len df) then nth_error (rows df) i else None).
Proof.
  intros sample request. subst sample request.
  assert (rows (head 100 df) = firstn (Nat.min 100 (len df)) (rows df)) as Hrows.
  { unfold head, len. cbn [rows]. rewrite <- firstn_firstn.
    now rewrite (firstn_all (rows df)). }
  split.
  { unfold on_analyze, bind.
    pose proof (analyze_data_sent c (head 100 df) w) as H.
    destruct (analyze_data (Some c) (head 100 df) w) as [[v|e] w']; simpl in *.
    - destruct (truthy v); exact H.
    - exact H. }
  split; [reflexivity|].
  split; [eexists; intros csv; reflexivity|].
  split; [reflexivity|].
  split; [exact Hrows|].
  split.
  { unfold len at 1. rewrite Hrows, length_firstn. unfold len. lia. }
  intros i. rewrite Hrows. apply nth_error_firstn.
Qed.

End AnalysisRequest.

(* ================================================================== *)
(** * Running without a credential *)
(* ================================================================== *)

Section NoCredential.

Context {L : Libraries}.
Import Spec.

Lemma draws_st x : draws (st x) [x].
Proof. intros w. reflexivity. Qed.

Lemma draws_ret : draws (ret tt) [].
Proof. intros w. unfold ret. now rewrite app_nil_r; destruct w. Qed.

Lemma draws_bind m k l1 l2 :
  draws m l1 -> draws k l2 -> draws (m ;; k) (l1 ++ l2).
Proof.
  intros Hm Hk w. unfold bind. rewrite Hm, Hk. simpl. now rewrite app_assoc.
Qed.

Lemma draws_drawn m l : draws m l -> drawn m = l.
Proof. intros H. unfold drawn. now rewrite H. Qed.

Lemma draws_self m l : draws m l -> draws m (drawn m).
Proof. intros H. now rewrite (draws_drawn m l H). Qed.

Ltac drawing :=
  repeat first [ apply draws_st | apply draws_ret
               | eapply draws_bind ].

Lemma key_metrics_draws df : draws (key_metrics df) (drawn (key_metrics df)).
Proof. eapply draws_self. unfold key_metrics. drawing. Qed.

Lemma preview_tab_draws df : draws (preview_tab df) (drawn (preview_tab df)).
Proof. eapply draws_self. unfold preview_tab. drawing. Qed.

Lemma visualization_tab_draws df :
  draws (visualization_tab df) (drawn (visualization_tab df)).
Proof.
  unfold visualization_tab.
  destruct (create_data_quality_viz df) as [[fig_missing fig_dtypes] fig_dist].
  destruct fig_missing, fig_dist, (1 <? _); eapply draws_self; drawing.
Qed.

Lemma sidebar_draws client : draws (sidebar client) (drawn (sidebar client)).
Proof.
  unfold sidebar. destruct client; eapply draws_self; drawing.
Qed.





End NoCredential.


(* ================================================================== *)
(** * Table statistics (specification 4.2) *)
(* ================================================================== *)

Section Duplicates.

Context {L : Libraries}.
Import Spec.

Lemma cell_eqb_eq a b : cell_eqb a b = true <-> a = b.
Proof.
  destruct a as [x|], b as [y|]; simpl; try (split; congruence).
  destruct (value_eq_dec x y); split; congruence.
Qed.

Lemma row_eqb_eq r1 r2 : row_eqb r1 r2 = true <-> r1 = r2.
Proof.
  revert r2; induction r1 as [|a r1 IH]; intros [|b r2]; simpl;
    try (split; congruence).
  rewrite andb_true_iff, cell_eqb_eq, IH. split.
  - intros [-> ->]. reflexivity.
  - intros [= -> ->]. now split.
Qed.








End Duplicates.

(* ================================================================== *)
(** * Lines of a reply *)
(* ================================================================== *)

Module LineFacts.

Import Spec PyFacts.

(** A marker cannot run across a character it does not contain. *)
Lemma startswith_sep c sub : ~ In c sub -> sub <> [] ->
  forall a b, startswith (a ++ c :: b) sub = startswith a sub.
Proof.
  induction sub as [|x sub IH]; intros Hn Hne a b; [congruence|].
  destruct a as [|y a]; simpl.
  - destruct (N.eqb_spec x c) as [->|]; [|reflexivity].
    exfalso. apply Hn. now left.
  - f_equal. destruct sub as [|x' sub'].
    + now rewrite !startswith_nil.
    + apply IH; [|discriminate]. intros Hin. apply Hn. now right.
Qed.

Lemma index_sep c sub : ~ In c sub -> sub <> [] ->
  forall a b,
  index (a ++ c :: b) sub =
  match index a sub with
  | Some i => Some i
  | None => option_map (fun k => length a + 1 + k) (index b sub)
  end.
Proof.
  intros Hn Hne. induction a as [|y a IH]; intros b.
  - rewrite (index_nil_sep sub Hne). cbn [app length Nat.add].
    pose proof (startswith_sep c sub Hn Hne [] b) as H0. cbn [app] in H0.
    cbn [index]. rewrite H0.
    destruct sub; [congruence|]. cbn [startswith].
    destruct (index b (n :: sub)); reflexivity.
  - pose proof (startswith_sep c sub Hn Hne (y :: a) b) as H0.
    change ((y :: a) ++ c :: b) with (y :: (a ++ c :: b)) in *. cbn [index].
    rewrite H0.
    destruct (startswith (y :: a) sub); [reflexivity|].
    rewrite IH. destruct (index a sub); [reflexivity|].
    destruct (index b sub); reflexivity.
Qed.

Lemma index_single_app c a b :
  index (a ++ c :: b) [c] =
  match index a [c] with
  | Some i => Some i
  | None => Some (length a)
  end.
Proof.
  induction a as [|y a IH].
  - simpl. now rewrite N.eqb_refl.
  - change ((y :: a) ++ c :: b) with (y :: (a ++ c :: b)). cbn [index startswith].
    destruct (c =? y)%N; simpl; [reflexivity|].
    rewrite IH. destruct (index a [c]); reflexivity.
Qed.

(** Splitting on a character distributes over that character. *)
Lemma split_app_single c b : forall n a, length a <= n ->
  split (a ++ c :: b) [c] = split a [c] ++ split b [c].
Proof.
  induction n as [|n IH]; intros a Hlen.
  - destruct a; [|simpl in Hlen; lia]. cbn [app].
    rewrite (split_some (c :: b) [c] 0); [reflexivity | discriminate |].
    simpl. now rewrite N.eqb_refl.
  - pose proof (index_single_app c a b) as Hi.
    destruct (index a [c]) as [i|] eqn:Ea.
    + pose proof (index_lt a [c] i ltac:(discriminate) Ea) as Hlt. simpl in Hlt.
      rewrite (split_some _ [c] i ltac:(discriminate) Hi).
      rewrite (split_some a [c] i ltac:(discriminate) Ea).
      rewrite firstn_app, skipn_app. simpl length.
      replace (i - length a) with 0 by lia.
      replace (i + 1 - length a) with 0 by lia.
      cbn [firstn skipn]. rewrite app_nil_r.
      rewrite IH by (rewrite length_skipn; lia). reflexivity.
    + rewrite (split_some _ [c] (length a) ltac:(discriminate) Hi).
      rewrite (split_none a [c] Ea).
      rewrite firstn_app, firstn_all, Nat.sub_diag. simpl firstn. rewrite app_nil_r.
      rewrite skipn_app, skipn_all2 by (simpl; lia). simpl length.
      replace (length a + 1 - length a) with 1 by lia. reflexivity.
Qed.

Lemma join_cons sep p rest :
  rest <> [] -> join sep (p :: rest) = p ++ sep ++ join sep rest.
Proof. destruct rest; [congruence | reflexivity]. Qed.

(** Joining the pieces of a split gives the text back. *)
Lemma join_split sep : sep <> [] ->
  forall n s, length s <= n -> join sep (split s sep) = s.
Proof.
  intros Hne. induction n as [|n IH]; intros s Hlen.
  - destruct s; [|simpl in Hlen; lia].
    now rewrite (split_none [] sep (index_nil_sep sep Hne)).
  - destruct (index s sep) as [i|] eqn:E.
    + pose proof (index_lt s sep i Hne E) as Hlt.
      assert (0 < length sep) by (destruct sep; [congruence | simpl; lia]).
      rewrite (split_some s sep i Hne E).
      rewrite join_cons by apply split_not_nil.
      rewrite IH by (rewrite length_skipn; lia).
      symmetry. apply occurs_at_split. now apply index_Some in E.
    + now rewrite (split_none s sep E).
Qed.

(** The lines of a text written as lines joined by newlines. *)
Lemma split_join_lines lines :
  lines <> [] -> Forall (fun l => ~ In 10%N l) lines ->
  split (join nl lines) nl = lines.
Proof.
  induction lines as [|l rest IH]; intros Hne Hall; [congruence|].
  inversion Hall as [|? ? Hl Hrest]; subst.
  destruct rest as [|l2 rest].
  - simpl. apply split_none. now apply index_single_None.
  - rewrite join_cons by discriminate. unfold nl at 1. cbn [app].
    rewrite (split_app_single 10%N _ (length l) l (le_n _)).
    rewrite (split_none l [10%N] (index_single_None 10%N l Hl)).
    change [10%N] with nl. rewrite IH; [reflexivity | discriminate | assumption].
Qed.

End LineFacts.

(* ================================================================== *)
(** * Removing the fence of the cleaning reply (specification 4.4) *)
(* ================================================================== *)

Section CsvFence.

Import Spec PyFacts LineFacts.

Lemma unfence_csv_labelled text :
  contains text csv_marker = true ->
  unfence_csv text
  = Ok (strip (before (before (after text csv_marker) csv_marker) fence)).
Proof.
  intros H. unfold unfence_csv.
  change (lit "```csv") with (fence ++ lit "csv"). change (lit "```") with fence.
  fold csv_marker. rewrite H.
  unfold csv_marker. rewrite (cut_labelled text (lit "csv") H). reflexivity.
Qed.

Lemma unfence_csv_generic text :
  contains text csv_marker = false -> contains text fence = true ->
  unfence_csv text
  = Ok (strip (join nl (filter (fun l => negb (fence_line l)) (split text nl)))).
Proof.
  intros Hm Hf. unfold unfence_csv.
  change (lit "```csv") with csv_marker. change (lit "```") with fence.
  rewrite Hm, Hf. reflexivity.
Qed.

Lemma unfence_csv_plain text :
  contains text fence = false -> unfence_csv text = Ok (strip text).
Proof.
  intros Hf. unfold unfence_csv.
  change (lit "```csv") with (fence ++ lit "csv"). change (lit "```") with fence.
  apply contains_false in Hf.
  pose proof (index_longer_None text fence (lit "csv") Hf) as Hm.
  apply contains_false in Hm. apply contains_false in Hf.
  rewrite Hm, Hf. reflexivity.
Qed.

(** C10 (as amended).  Without a ['```csv'] marker but with a fence, the
    reply is taken line by line: each line whose stripped content starts
    with three backticks is dropped, every other line is kept as it is and
    in order (prose outside the fences included), the lines are joined
    again and the result is stripped.  With a ['```csv'] marker, the text
    after the first marker is cut at the next marker, if any, then at the
    first fence, if any, and stripped; this is the content up to the next
    fence provided no further backtick follows that fence.  Without any
    fence the reply is only stripped. *)
Theorem unfence_csv_cases (text : str) :
  (contains text csv_marker = false -> contains text fence = true ->
     forall lines, lines <> [] -> Forall (fun l => ~ In 10%N l) lines ->
       text = join nl lines ->
       unfence_csv text
       = Ok (strip (join nl (filter (fun l => negb (fence_line l)) lines))))
  /\ (contains text csv_marker = true ->
      unfence_csv text
      = Ok (strip (before (before (after text csv_marker) csv_marker) fence))
      /\ forall mid, between text csv_marker fence = Some mid ->
           startswith (after (after text csv_marker) fence) backtick = false ->
           unfence_csv text = Ok (strip mid))
  /\ (contains text fence = false -> unfence_csv text = Ok (strip text)).
Proof.
  split; [|split].
  - intros Hm Hf lines Hne Hall ->.
    rewrite (unfence_csv_generic _ Hm Hf).
    now rewrite (split_join_lines lines Hne Hall).
  - intros Hm. split; [now apply unfence_csv_labelled|].
    intros mid Hb Hnext. rewrite (unfence_csv_labelled _ Hm).
    unfold csv_marker in *. now rewrite (cut_labelled_between text (lit "csv") mid Hb Hnext).
  - apply unfence_csv_plain.
Qed.

End CsvFence.

(** C10, counterexample.  The next fence after the marker follows the
    letter directly, so the content between them is the letter alone; the
    script returns one backtick more, because that fence runs into a
    second marker. *)
Lemma unfence_csv_cases_counterexample :
  let text := lit "```csvX````csv" in
  contains text (lit "```csv") = true
  /\ Spec.between text (lit "```csv") (lit "```") = Some (lit "X")
  /\ unfence_csv text = Ok (lit "X`")
  /\ lit "X`" <> strip (lit "X").
Proof.
  vm_compute. repeat split; try reflexivity. discriminate.
Qed.

(** C10, witness: prose around a generic fence, and a labelled fence. *)
Lemma unfence_csv_cases_witness :
  unfence_csv (lit "Here you go:
```
a,b
1,2
```
Done.") = Ok (lit "Here you go:
a,b
1,2
Done.")
  /\ unfence_csv (lit "Here you go:
```csv
a,b
1,2
```
Done.") = Ok (lit "a,b
1,2").
Proof.
  split.
  - destruct (unfence_csv_cases (lit "Here you go:
```
a,b
1,2
```
Done.")) as (Hgeneric & _ & _).
    rewrite (Hgeneric eq_refl eq_refl
               [lit "Here you go:"; lit "```"; lit "a,b"; lit "1,2"; lit "```"; lit "Done."]).
    + reflexivity.
    + discriminate.
    + repeat constructor; absent.
    + reflexivity.
  - destruct (unfence_csv_cases (lit "Here you go:
```csv
a,b
1,2
```
Done.")) as (_ & Hlabelled & _).
    destruct (Hlabelled eq_refl) as [_ Hmid].
    rewrite (Hmid (lit "
a,b
1,2
") eq_refl eq_refl).
    reflexivity.
Defined.

Section FencedCsv.

Context {L : Libraries}.
Import Spec PyFacts LineFacts.

Lemma filter_all {A} (f : A -> bool) l : forallb f l = true -> filter f l = l.
Proof.
  induction l as [|x l IH]; simpl; [reflexivity|].
  intros [Hx Hl]%andb_true_iff. rewrite Hx. f_equal. now apply IH.
Qed.

Lemma fence_line_opening label : fence_line (fence ++ label) = true.
Proof.
  unfold fence_line, strip.
  change (fence ++ label) with ([] ++ 96%N :: (96%N :: 96%N :: label)).
  rewrite (lstrip_nonspace [] 96%N _ eq_refl). simpl lstrip. cbn [app].
  change (96%N :: 96%N :: 96%N :: label) with ([96%N; 96%N] ++ 96%N :: label).
  rewrite (rstrip_nonspace _ 96%N label eq_refl). reflexivity.
Qed.

(** A labelled block around text that holds no fence. *)
Lemma unfence_csv_labelled_block csv :
  contains csv fence = false ->
  unfence_csv (csv_marker ++ nl ++ csv ++ nl ++ fence) = Ok (strip csv).
Proof.
  intros Hc. apply contains_false in Hc.
  set (response := csv_marker ++ nl ++ csv ++ nl ++ fence).
  assert (index response csv_marker = Some 0) as Hi by reflexivity.
  assert (after response csv_marker = nl ++ csv ++ nl ++ fence) as Ha by reflexivity.
  assert (index (nl ++ csv ++ nl ++ fence) fence = Some (length (nl ++ csv ++ nl))) as Hj.
  { change (nl ++ csv ++ nl ++ fence) with ([] ++ 10%N :: (csv ++ 10%N :: fence)).
    rewrite (index_sep 10%N fence ltac:(absent) fence_ne [] _).
    rewrite (index_nil_sep fence fence_ne).
    rewrite (index_sep 10%N fence ltac:(absent) fence_ne csv fence), Hc.
    change (index fence fence) with (Some 0). simpl option_map.
    f_equal. rewrite !length_app. simpl. lia. }
  assert (between response csv_marker fence = Some (nl ++ csv ++ nl)) as Hb.
  { unfold between. rewrite Hi, Ha, Hj. f_equal.
    replace (nl ++ csv ++ nl ++ fence) with ((nl ++ csv ++ nl) ++ fence)
      by (now rewrite <- !app_assoc).
    rewrite firstn_app, firstn_all, Nat.sub_diag. simpl firstn. apply app_nil_r. }
  rewrite (unfence_csv_labelled response ltac:(reflexivity)).
  unfold csv_marker in *.
  rewrite (cut_labelled_between response (lit "csv") _ Hb).
  - f_equal. now apply strip_space.
  - rewrite Ha. unfold after. rewrite Hj.
    rewrite skipn_all2; [reflexivity|]. rewrite !length_app. simpl. lia.
Qed.

(** A generic block around text none of whose lines is a fence. *)
Lemma unfence_csv_generic_block label csv :
  ~ In 10%N label ->
  contains (fence ++ label ++ nl ++ csv ++ nl ++ fence) csv_marker = false ->
  forallb (fun l => negb (fence_line l)) (split csv nl) = true ->
  unfence_csv (fence ++ label ++ nl ++ csv ++ nl ++ fence) = Ok (strip csv).
Proof.
  intros Hl Hm Hlines.
  rewrite (unfence_csv_generic _ Hm ltac:(reflexivity)). f_equal. f_equal.
  assert (~ In 10%N (fence ++ label)) as Hopen.
  { intros [H|H]%in_app_or; [revert H; absent | contradiction]. }
  rewrite (app_assoc fence label). unfold nl at 2 3. cbn [app].
  rewrite (split_app_single 10%N _ _ (fence ++ label) (le_n _)).
  rewrite (split_app_single 10%N _ _ csv (le_n _)).
  rewrite (split_none (fence ++ label) [10%N] (index_single_None _ _ Hopen)).
  change (split fence [10%N]) with [fence]. change [10%N] with nl.
  cbn [app filter]. rewrite fence_line_opening. cbn [negb].
  rewrite filter_app, (filter_all _ _ Hlines). cbn [filter].
  change (fence_line fence) with true. cbn [negb]. rewrite app_nil_r.
  now apply (join_split nl ltac:(discriminate) (length csv)).
Qed.

(** C5 (as amended).  A reply made of CSV text inside a fenced block.
    With the label [csv] and CSV text that holds no fence, or with another
    label (or none) and CSV text none of whose lines is a fence, removing
    the fence yields the CSV text stripped of surrounding whitespace; so
    what the handler parses is the table of that text, with its number of
    columns. *)
Theorem fenced_csv_parses (csv : str) :
  (contains csv fence = false ->
     let response := csv_marker ++ nl ++ csv ++ nl ++ fence in
     unfence_csv response = Ok (strip csv)
     /\ forall t, read_csv (strip csv) = Ok t ->
          exists t', and_then (unfence_csv response) read_csv = Ok t'
                     /\ n_columns t' = n_columns t)
  /\ (forall label,
        ~ In 10%N label ->
        let response := fence ++ label ++ nl ++ csv ++ nl ++ fence in
        contains response csv_marker = false ->
        forallb (fun l => negb (fence_line l)) (split csv nl) = true ->
        unfence_csv response = Ok (strip csv)
        /\ forall t, read_csv (strip csv) = Ok t ->
             exists t', and_then (unfence_csv response) read_csv = Ok t'
                        /\ n_columns t' = n_columns t).
Proof.
  split.
  - intros Hc response. subst response.
    rewrite (unfence_csv_labelled_block csv Hc). split; [reflexivity|].
    intros t Ht. exists t. now split.
  - intros label Hl response Hm Hlines. subst response.
    rewrite (unfence_csv_generic_block label csv Hl Hm Hlines). split; [reflexivity|].
    intros t Ht. exists t. now split.
Qed.

End FencedCsv.

(** C5, counterexample.  The first column of this CSV table is named with
    three backticks in it.  Wrapped in a labelled block, the table comes
    back with one column instead of two: the cut stops at the backticks of
    the header. *)
Lemma fenced_csv_parses_counterexample :
  let L := Ref.libraries (Ref.always []) in
  let csv := lit "a```,b
1,2" in
  let response := lit "```csv
a```,b
1,2
```" in
  response = Spec.csv_marker ++ nl ++ csv ++ nl ++ Spec.fence
  /\ option_map n_columns (match read_csv csv with Ok t => Some t | Raise _ => None end)
     = Some 2
  /\ unfence_csv response = Ok (lit "a")
  /\ option_map n_columns
       (match and_then (unfence_csv response) read_csv with
        | Ok t => Some t
        | Raise _ => None
        end)
     = Some 1.
Proof.
  vm_compute. repeat split.
Qed.

(** C5, witness: the same small table in a labelled and in an unlabelled
    block. *)
Lemma fenced_csv_parses_witness :
  let L := Ref.libraries (Ref.always []) in
  let t := Table [(lit "a", Ref.untyped); (lit "b", Ref.untyped)]
                 [[Some (lit "1"); Some (lit "2")]] in
  and_then (unfence_csv (lit "```csv
a,b
1,2

```")) read_csv = Ok t
  /\ and_then (unfence_csv (lit "```
a,b
1,2

```")) read_csv = Ok t.
Proof.
  intros L t.
  destruct (@fenced_csv_parses L (lit "a,b
1,2
")) as [Hlabelled Hgeneric].
  split.
  - destruct (Hlabelled eq_refl) as [Htext _].
    change (Spec.csv_marker ++ nl ++ lit "a,b
1,2
" ++ nl ++ Spec.fence) with (lit "```csv
a,b
1,2

```") in Htext.
    rewrite Htext. reflexivity.
  - destruct (Hgeneric [] ltac:(absent) eq_refl eq_refl) as [Htext _].
    change (Spec.fence ++ [] ++ nl ++ lit "a,b
1,2
" ++ nl ++ Spec.fence) with (lit "```
a,b
1,2

```") in Htext.
    rewrite Htext. reflexivity.
Defined.

(** C3, witness: a labelled fence, a generic fence, and no fence. *)
Lemma parse_analysis_order_witness :
  let L := Ref.libraries (Ref.always []) in
  let obj := JObj [(lit "severity", JStr (lit "low"))] in
  parse_analysis (dq "Sure:
```json
{'severity': 'low'}
```
Bye") Ref.fresh = (Ok obj, Ref.fresh)
  /\ parse_analysis (dq "```
{'severity': 'low'}
```") Ref.fresh = (Ok obj, Ref.fresh)
  /\ parse_analysis (dq " {'severity': 'low'} ") Ref.fresh = (Ok obj, Ref.fresh).
Proof.
  intros L obj. split; [|split].
  - destruct (@parse_analysis_order L (dq "Sure:
```json
{'severity': 'low'}
```
Bye") Ref.fresh) as (_ & Hlab & _ & _ & Hstrict & _).
    cbv zeta in Hlab, Hstrict. apply Hstrict.
    rewrite (Hlab eq_refl (dq "
{'severity': 'low'}
") eq_refl eq_refl).
    reflexivity.
  - destruct (@parse_analysis_order L (dq "```
{'severity': 'low'}
```") Ref.fresh) as (_ & _ & Hgen & _ & Hstrict & _).
    cbv zeta in Hgen, Hstrict. apply Hstrict.
    rewrite (Hgen eq_refl eq_refl (dq "
{'severity': 'low'}
") eq_refl).
    reflexivity.
  - destruct (@parse_analysis_order L (dq " {'severity': 'low'} ") Ref.fresh)
      as (_ & _ & _ & Hnone & Hstrict & _).
    cbv zeta in Hnone, Hstrict. apply Hstrict.
    rewrite (Hnone eq_refl). reflexivity.
Defined.

(* ================================================================== *)
(** * Loading the uploaded file *)
(* ================================================================== *)

Section LoadFile.

Context {L : Libraries}.
Import Spec PyFacts LineFacts.

Lemma str_eqb_eq a b : str_eqb a b = true <-> a = b.
Proof. unfold str_eqb. destruct (list_eq_dec N.eq_dec a b); split; congruence. Qed.

(** The extension [load_file] looks at is the text after the last dot of
    the name, the whole name when it has no dot. *)
Lemma last_piece_dotted stem ext :
  ~ In 46%N ext -> last (split (stem ++ lit "." ++ ext) (lit ".")) [] = ext.
Proof.
  intros Hn. change (lit ".") with [46%N]. cbn [app].
  rewrite (split_app_single 46%N ext (length stem) stem (le_n _)).
  rewrite (split_none ext [46%N] (index_single_None 46%N ext Hn)).
  apply last_last.
Qed.

Lemma last_piece_plain ext :
  ~ In 46%N ext -> last (split ext (lit ".")) [] = ext.
Proof.
  intros Hn. change (lit ".") with [46%N].
  now rewrite (split_none ext [46%N] (index_single_None 46%N ext Hn)).
Qed.

(** X1.  The file type is decided by the text after the last dot of the
    name, compared without regard to case; a name without a dot is taken
    whole as its extension.  [csv] goes to the CSV reader, [xlsx] and [xls]
    to the Excel reader, and an exception of the reader becomes the
    "Error loading file" message with no table; any other extension gives
    the "Unsupported file format" message and no reader is called. *)
Theorem load_file_extension stem ext bytes (w : world_t) (Hdot : ~ In 46%N ext) :
  let f := Upload (stem ++ lit "." ++ ext) bytes in
  let failed := fun e =>
    (@Ok (option DataFrame) None,
     World (page w ++ [st_error (LoadError e)]) (sent w) (session w)) in
  (lower ext = lit "csv" ->
     load_file f w = match read_csv_file bytes with
                     | Ok df => (Ok (Some df), w)
                     | Raise e => failed e
                     end)
  /\ (lower ext = lit "xlsx" \/ lower ext = lit "xls" ->
      load_file f w = match read_excel bytes with
                      | Ok df => (Ok (Some df), w)
                      | Raise e => failed e
                      end)
  /\ (lower ext <> lit "csv" -> lower ext <> lit "xlsx" -> lower ext <> lit "xls" ->
      load_file f w
      = (Ok None, World (page w ++ [st_error UnsupportedFormat]) (sent w) (session w)))
  /\ load_file (Upload ext bytes) w = load_file f w.
Proof.
  intros f failed.
  assert (forall g, last (split (name g) (lit ".")) [] = ext ->
            load_file g w =
            if str_eqb (lower ext) (lit "csv") then
              match read_csv_file (data g) with
              | Ok df => (Ok (Some df), w)
              | Raise e => failed e
              end
            else if str_eqb (lower ext) (lit "xlsx") || str_eqb (lower ext) (lit "xls") then
              match read_excel (data g) with
              | Ok df => (Ok (Some df), w)
              | Raise e => failed e
              end
            else (Ok None,
                  World (page w ++ [st_error UnsupportedFormat]) (sent w) (session w)))
    as Hgen.
  { intros g He. unfold load_file, try_except. rewrite He.
    destruct (str_eqb (lower ext) (lit "csv")).
    - unfold bind, lift, ret. destruct (read_csv_file (data g)); reflexivity.
    - destruct (str_eqb (lower ext) (lit "xlsx") || str_eqb (lower ext) (lit "xls")).
      + unfold bind, lift, ret. destruct (read_excel (data g)); reflexivity.
      + reflexivity. }
  pose proof (Hgen f (last_piece_dotted stem ext Hdot)) as Hf.
  pose proof (Hgen (Upload ext bytes) (last_piece_plain ext Hdot)) as Hp.
  cbn [data] in Hf, Hp.
  split; [|split; [|split]].
  - intros Hc. rewrite Hf, Hc. reflexivity.
  - intros Hx. rewrite Hf.
    destruct (str_eqb (lower ext) (lit "csv")) eqn:Ec.
    { apply str_eqb_eq in Ec. rewrite Ec in Hx. destruct Hx; discriminate. }
    replace (str_eqb (lower ext) (lit "xlsx") || str_eqb (lower ext) (lit "xls"))
      with true; [reflexivity|].
    symmetry. apply orb_true_iff. destruct Hx as [Hx|Hx]; [left|right]; now apply str_eqb_eq.
  - intros H1 H2 H3. rewrite Hf.
    destruct (str_eqb (lower ext) (lit "csv")) eqn:E1;
      [apply str_eqb_eq in E1; contradiction|].
    destruct (str_eqb (lower ext) (lit "xlsx")) eqn:E2;
      [apply str_eqb_eq in E2; contradiction|].
    destruct (str_eqb (lower ext) (lit "xls")) eqn:E3;
      [apply str_eqb_eq in E3; contradiction|].
    reflexivity.
  - now rewrite Hf, Hp.
Qed.

(** X2.  [load_file] never raises and touches neither the requests nor the
    session: it returns a table and leaves the page alone, or returns
    nothing and adds exactly one error message. *)
Theorem load_file_total f (w : world_t) :
  exists r w', load_file f w = (Ok r, w')
    /\ sent w' = sent w /\ session w' = session w
    /\ match r with
       | Some _ => page w' = page w
       | None => exists m, page w' = page w ++ [st_error m]
       end.
Proof.
  unfold load_file, try_except.
  destruct (str_eqb _ (lit "csv")).
  - unfold bind, lift, ret. destruct (read_csv_file (data f)) as [df|e].
    + exists (Some df), w. auto.
    + eexists None, _. simpl. repeat split. now eexists.
  - destruct (str_eqb _ (lit "xlsx") || str_eqb _ (lit "xls")).
    + unfold bind, lift, ret. destruct (read_excel (data f)) as [df|e].
      * exists (Some df), w. auto.
      * eexists None, _. simpl. repeat split. now eexists.
    + eexists None, _. simpl. repeat split. now eexists.
Qed.

End LoadFile.

(** X1, witness: an upper-case extension after two dots, and a name that
    is nothing but the extension. *)
Lemma load_file_extension_witness :
  let L := Ref.libraries (Ref.always []) in
  let bytes := Ref.write_csv Ref.sample_table in
  load_file (Upload (lit "Report.Final.CSV") bytes) Ref.fresh
  = (Ok (Some Ref.sample_table), Ref.fresh)
  /\ load_file (Upload (lit "notes.txt") bytes) Ref.fresh
     = (Ok None, World [st_error UnsupportedFormat] [] (Session None None None))
  /\ load_file (Upload (lit "CSV") bytes) Ref.fresh
     = (Ok (Some Ref.sample_table), Ref.fresh).
Proof.
  intros L bytes. split; [|split].
  - destruct (@load_file_extension L (lit "Report.Final") (lit "CSV") bytes Ref.fresh
                ltac:(absent)) as (Hcsv & _).
    exact (Hcsv eq_refl).
  - destruct (@load_file_extension L (lit "notes") (lit "txt") bytes Ref.fresh
                ltac:(absent)) as (_ & _ & Hother & _).
    apply Hother; discriminate.
  - destruct (@load_file_extension L (lit "x") (lit "CSV") bytes Ref.fresh
                ltac:(absent)) as (Hcsv & _ & _ & Hplain).
    rewrite Hplain. exact (Hcsv eq_refl).
Defined.

(* ================================================================== *)
(** * The client and the two remote functions: error behaviour *)
(* ================================================================== *)

Section RemoteErrors.

Context {L : Libraries}.
Import Spec PyFacts.

(** X3.  A credential variable that is set but empty counts as missing;
    a non-empty key is handed unchanged to the client constructor, and an
    exception of the constructor becomes a message and no client. *)
Theorem get_client_cases env (w : world_t) :
  (env (lit "GROQ_API_KEY") = Some [] ->
     get_client env w
     = (Ok None,
        World (page w ++ [st_error KeyNotFound; st_info GetKeyFrom]) (sent w) (session w)))
  /\ (forall k, env (lit "GROQ_API_KEY") = Some k -> k <> [] ->
        get_client env w
        = match new_client k with
          | Ok c => (Ok (Some c), w)
          | Raise e =>
              (Ok None,
               World (page w ++ [st_error (ClientInitError e)]) (sent w) (session w))
          end).
Proof.
  split.
  - intros H. unfold get_client, try_except. rewrite H.
    unfold bind, st, ret. simpl. now rewrite <- app_assoc.
  - intros k H Hk. unfold get_client, try_except. rewrite H.
    destruct k as [|c k]; [congruence|]. simpl.
    unfold bind, lift, ret, st. destruct (new_client (c :: k)); reflexivity.
Qed.

(** The three ways the parsing of a reply can end. *)
Lemma parse_analysis_cases text (w : world_t) :
  (exists v, parse_analysis text w = (Ok v, w))
  \/ parse_analysis text w
     = (Ok JNull, World (page w ++ [st_error CouldNotParse]) (sent w) (session w))
  \/ (exists e, parse_analysis text w = (Raise e, w)).
Proof.
  rewrite parse_analysis_unfold.
  destruct (json_loads (strip (json_block text))) as [v|e]; [left; now exists v|].
  assert (forall t, (exists v, brace_fallback t w = (Ok v, w))
                    \/ brace_fallback t w
                       = (Ok JNull,
                          World (page w ++ [st_error CouldNotParse]) (sent w) (session w))
                    \/ (exists e, brace_fallback t w = (Raise e, w))) as Hfb.
  { intros t. unfold brace_fallback.
    destruct (negb _ && _).
    - unfold bind, lift, ret. destruct (json_loads _) as [v|e'].
      + left. now exists v.
      + right. right. now exists e'.
    - right. left. reflexivity. }
  destruct (kind e); try (right; right; now exists e). apply Hfb.
Qed.

Lemma analyze_data_outcome client df (w : world_t) :
  exists v w', analyze_data client df w = (Ok v, w')
    /\ session w' = session w
    /\ sent w' = sent w ++ match client with
                           | Some _ => [analysis_request (to_csv df)]
                           | None => []
                           end
    /\ (page w' = page w
        \/ (v = JNull /\ exists m, page w' = page w ++ [st_error m])).
Proof.
  destruct client as [c|].
  - unfold analyze_data, try_except, bind, create.
    set (w1 := World (page w) (sent w ++ [analysis_request (to_csv df)]) (session w)).
    destruct (chat_completion c _) as [text|e]; simpl.
    + destruct (parse_analysis_cases text w1) as [[v H] | [H | [e H]]]; rewrite H.
      * exists v, w1. repeat split. now left.
      * eexists JNull, _. repeat split. right. split; [reflexivity | now eexists].
      * eexists JNull, _. repeat split. right. split; [reflexivity | now eexists].
    + eexists JNull, _. repeat split. right. split; [reflexivity | now eexists].
  - exists JNull, w. simpl. rewrite app_nil_r. repeat split. now left.
Qed.

(** X4.  [analyze_data] never raises and never changes the session.  With
    a client it sends exactly one request, whatever comes back; without
    one it sends none.  It draws nothing, or exactly one error message,
    and in that case it returns [None]. *)
Theorem analyze_data_total client df (w : world_t) :
  exists v w', analyze_data client df w = (Ok v, w')
    /\ session w' = session w
    /\ sent w' = sent w ++ match client with
                           | Some _ => [analysis_request (to_csv df)]
                           | None => []
                           end
    /\ (page w' = page w
        \/ (v = JNull /\ exists m, page w' = page w ++ [st_error m])).
Proof.
  exact (analyze_data_outcome client df w).
Qed.

End RemoteErrors.

(** X3, witness: an empty key, and a key the constructor accepts. *)
Lemma get_client_cases_witness :
  let L := Ref.libraries (Ref.always []) in
  get_client (fun _ => Some []) Ref.fresh
  = (Ok None,
     World [st_error KeyNotFound; st_info GetKeyFrom] [] (Session None None None))
  /\ get_client (fun _ => Some (lit "gsk_test")) Ref.fresh
     = (Ok (Some Ref.a_client), Ref.fresh).
Proof.
  intros L.
  destruct (@get_client_cases L (fun _ => Some []) Ref.fresh) as [Hempty _].
  destruct (@get_client_cases L (fun _ => Some (lit "gsk_test")) Ref.fresh) as [_ Hkey].
  split.
  - exact (Hempty eq_refl).
  - apply (Hkey (lit "gsk_test") eq_refl). discriminate.
Defined.

Section CleanErrors.

Context {L : Libraries}.
Import Spec PyFacts.

(** ** [strip] leaves nothing to strip *)

Lemma lstrip_clean_head s : clean_head (lstrip s).
Proof.
  induction s as [|c s IH]; simpl; [exact I|].
  destruct (isspace c) eqn:E; [exact IH | exact E].
Qed.

Lemma lstrip_id s : clean_head s -> lstrip s = s.
Proof. destruct s as [|c s]; simpl; [reflexivity|]. now intros ->. Qed.

Lemma rstrip_rstrip s : rstrip (rstrip s) = rstrip s.
Proof.
  unfold rstrip. rewrite rev_involutive.
  now rewrite (lstrip_id _ (lstrip_clean_head (rev s))).
Qed.

Lemma rstrip_clean_head s : clean_head s -> clean_head (rstrip s).
Proof.
  intros H. destruct (rstrip_prefix s) as (ws & Hs & _).
  destruct (rstrip s) as [|c r]; [exact I|].
  rewrite Hs in H. exact H.
Qed.

Lemma strip_strip s : strip (strip s) = strip s.
Proof.
  unfold strip.
  rewrite (lstrip_id (rstrip (lstrip s))).
  - apply rstrip_rstrip.
  - apply rstrip_clean_head, lstrip_clean_head.
Qed.

(** The fence step of [clean_data] never fails: the index [1] it takes is
    guarded by the test before it. *)
Lemma unfence_csv_total text : exists t, unfence_csv text = Ok t /\ strip t = t.
Proof.
  destruct (contains text csv_marker) eqn:Em.
  - eexists. split; [now apply unfence_csv_labelled | apply strip_strip].
  - destruct (contains text fence) eqn:Ef.
    + eexists. split; [now apply unfence_csv_generic | apply strip_strip].
    + eexists. split; [now apply unfence_csv_plain | apply strip_strip].
Qed.

Lemma clean_data_outcome client df issues (w : world_t) :
  exists r w', clean_data client df issues w = (Ok r, w')
    /\ session w' = session w
    /\ (exists requests, sent w' = sent w ++ requests /\ length requests <= 1)
    /\ match r with
       | Some t => strip t = t /\ page w' = page w
       | None =>
           (client = None /\ w' = w)
           \/ exists e, page w' = page w ++ [st_error (CleaningError e)]
       end
    /\ (client = None -> r = None /\ w' = w).
Proof.
  destruct client as [c|].
  - unfold clean_data, try_except, bind, lift, create.
    destruct (str_join (lit ", ") issues) as [joined|e].
    + destruct (chat_completion c _) as [reply|e]; simpl.
      * destruct (unfence_csv_total reply) as (t & Ht & Hs). rewrite Ht.
        eexists (Some t), _. split; [reflexivity|]. split; [reflexivity|].
        split; [eexists; split; [reflexivity | simpl; lia]|].
        split; [split; [exact Hs | reflexivity] | discriminate].
      * eexists None, _. split; [reflexivity|]. split; [reflexivity|].
        split; [eexists; split; [reflexivity | simpl; lia]|].
        split; [right; now eexists | discriminate].
    + eexists None, _. simpl. split; [reflexivity|]. split; [reflexivity|].
      split; [exists []; split; [now rewrite app_nil_r | simpl; lia]|].
      split; [right; now eexists | discriminate].
  - exists None, w. simpl. split; [reflexivity|]. split; [reflexivity|].
    split; [exists []; split; [now rewrite app_nil_r | simpl; lia]|].
    split; [now left | now split].
Qed.

(** X5.  [clean_data] never raises and never changes the session; it sends
    at most one request.  When it returns a text, that text has no
    surrounding whitespace and nothing was drawn; when it returns [None]
    with a client present, exactly one "Cleaning error" message was
    drawn.  Without a client it returns [None] and does nothing at all. *)
Theorem clean_data_total client df issues (w : world_t) :
  exists r w', clean_data client df issues w = (Ok r, w')
    /\ session w' = session w
    /\ (exists requests, sent w' = sent w ++ requests /\ length requests <= 1)
    /\ match r with
       | Some t => strip t = t /\ page w' = page w
       | None =>
           (client = None /\ w' = w)
           \/ exists e, page w' = page w ++ [st_error (CleaningError e)]
       end
    /\ (client = None -> r = None /\ w' = w).
Proof.
  exact (clean_data_outcome client df issues w).
Qed.

Lemma all_str_bad items x :
  In x items -> (forall s, x <> JStr s) ->
  exists e, all_str items = Raise e /\ kind e = TypeError.
Proof.
  induction items as [|y items IH]; intros Hin Hx; [contradiction|].
  destruct Hin as [-> | Hin].
  - destruct x; try (eexists; split; reflexivity).
    exfalso. now apply (Hx s).
  - destruct (IH Hin Hx) as (e & He & Hk).
    destruct y; try (eexists; split; reflexivity).
    simpl. rewrite He. exists e. now split.
Qed.

(** X6.  When the issues of the analysis are not a list of strings (an
    item of the list is not a string, or the value is [null], a boolean or
    a number, whether an integer, a float, [NaN] or an infinity), the
    prompt cannot be built: [clean_data] sends nothing, draws the
    "Cleaning error" message for the [TypeError] and returns [None]. *)
Theorem clean_data_bad_issues c df issues (w : world_t) :
  (exists items x, issues = JArr items /\ In x items /\ forall s, x <> JStr s)
  \/ issues = JNull \/ (exists b, issues = JBool b) \/ (exists z, issues = JInt z)
  \/ (exists m e, issues = JFloat m e) \/ issues = JNaN
  \/ (exists negative, issues = JInf negative) ->
  exists e, kind e = TypeError
    /\ clean_data (Some c) df issues w
       = (Ok None,
          World (page w ++ [st_error (CleaningError e)]) (sent w) (session w)).
Proof.
  intros H.
  assert (exists e, str_join (lit ", ") issues = Raise e /\ kind e = TypeError) as (e & He & Hk).
  { destruct H as [(items & x & -> & Hin & Hx)
                   | [-> | [[b ->] | [[z ->] | [(m & e & ->) | [-> | [n ->]]]]]]];
      try (eexists; split; reflexivity).
    destruct (all_str_bad items x Hin Hx) as (e & He & Hk).
    exists e. unfold str_join. simpl. rewrite He. now split. }
  exists e. split; [exact Hk|].
  unfold clean_data, try_except, bind, lift. rewrite He. reflexivity.
Qed.

End CleanErrors.

(** X6, witness: issues given as a list of numbers, and as one float. *)
Lemma clean_data_bad_issues_witness :
  let L := Ref.libraries (Ref.always (lit "a,b")) in
  (fst (clean_data (Some Ref.a_client) Ref.sample_table (JArr [JInt 1; JInt 2]) Ref.fresh)
   = Ok None
   /\ sent (snd (clean_data (Some Ref.a_client) Ref.sample_table
                   (JArr [JInt 1; JInt 2]) Ref.fresh)) = [])
  /\ (fst (clean_data (Some Ref.a_client) Ref.sample_table (JFloat 25 (-1)) Ref.fresh)
      = Ok None
      /\ sent (snd (clean_data (Some Ref.a_client) Ref.sample_table
                      (JFloat 25 (-1)) Ref.fresh)) = []).
Proof.
  intros L. split.
  - destruct (@clean_data_bad_issues L Ref.a_client Ref.sample_table
                (JArr [JInt 1; JInt 2]) Ref.fresh) as (e & _ & H).
    + left. exists [JInt 1; JInt 2], (JInt 1). repeat split; [now left | discriminate].
    + rewrite H. split; reflexivity.
  - destruct (@clean_data_bad_issues L Ref.a_client Ref.sample_table
                (JFloat 25 (-1)) Ref.fresh) as (e & _ & H).
    + right. right. right. right. left. now exists 25%Z, (-1)%Z.
    + rewrite H. split; reflexivity.
Defined.

(* ================================================================== *)
(** * What reaches the JSON parser *)
(* ================================================================== *)

Section ParserInput.

Context {L : Libraries}.
Import Spec PyFacts.

Lemma index_infix_None t s sub :
  infix t s -> index s sub = None -> index t sub = None.
Proof.
  intros (a & b & ->) Hs. apply index_None. intros j Hj.
  destruct (occurs_at t sub j) eqn:E; [|reflexivity].
  rewrite index_None in Hs. specialize (Hs (length a + j)).
  rewrite !length_app in Hs.
  rewrite <- Hs by lia.
  unfold occurs_at in *.
  rewrite skipn_app, skipn_all2 by lia. simpl.
  replace (length a + j - length a) with j by lia.
  rewrite skipn_app. symmetry. now apply startswith_app_l.
Qed.

Lemma json_block_fence_free text : contains (json_block text) fence = false.
Proof.
  apply contains_false. unfold json_block.
  destruct (contains text (fence ++ lit "json")).
  - apply index_before, fence_ne.
  - destruct (contains text fence) eqn:E.
    + apply index_before, fence_ne.
    + now apply contains_false.
Qed.

(** X7.  No fence ever reaches the JSON parser or the CSV reader of a
    labelled reply: the text [analyze_data] parses strictly, and the text
    [clean_data] returns for a reply with a ['```csv'] marker, contain no
    run of three backticks. *)
Theorem unfenced_text_has_no_fence text :
  (forall t, unfence_json text = Ok t -> contains (strip t) fence = false)
  /\ (contains text csv_marker = true ->
      forall t, unfence_csv text = Ok t -> contains t fence = false).
Proof.
  split.
  - intros t Ht. rewrite unfence_json_block in Ht. injection Ht as <-.
    apply contains_false. apply (index_infix_None _ (json_block text)).
    + apply infix_strip.
    + apply contains_false, json_block_fence_free.
  - intros Hm t Ht. rewrite (unfence_csv_labelled text Hm) in Ht. injection Ht as <-.
    apply contains_false.
    eapply index_infix_None; [apply infix_strip|].
    apply index_before, fence_ne.
Qed.

(** First and last occurrence of a character. *)
Lemma first_occurrence (c : N) s :
  In c s -> exists pre rest, s = pre ++ c :: rest /\ ~ In c pre.
Proof.
  induction s as [|a s IH]; intros Hin; [contradiction|].
  destruct (N.eq_dec a c) as [-> | Hne].
  - exists [], s. split; [reflexivity | intros []].
  - destruct Hin as [-> | Hin]; [congruence|].
    destruct (IH Hin) as (pre & rest & -> & Hn).
    exists (a :: pre), rest. split; [reflexivity|].
    intros [-> | H]; [congruence | contradiction].
Qed.

Lemma last_occurrence (c : N) s :
  In c s -> exists x post, s = x ++ c :: post /\ ~ In c post.
Proof.
  intros Hin. apply in_rev in Hin.
  destruct (first_occurrence c (rev s) Hin) as (pre & rest & Hs & Hn).
  exists (rev rest), (rev pre). split.
  - rewrite <- (rev_involutive s), Hs, rev_app_distr. simpl.
    now rewrite <- app_assoc.
  - intros H. apply Hn. now apply in_rev.
Qed.

Lemma occurs_at_nth (c : N) s j :
  occurs_at s [c] j = true <-> nth_error s j = Some c.
Proof.
  unfold occurs_at. rewrite startswith_single.
  revert s; induction j as [|j IH]; intros s; destruct s as [|a s]; simpl.
  - split; [intros [r H]; discriminate | discriminate].
  - split; [intros [r [= -> _]]; reflexivity | intros [= ->]; now eexists].
  - split; [intros [r H]; discriminate | discriminate].
  - apply IH.
Qed.

(** A text with a brace pair splits at its first opening and its last
    closing brace. *)
Lemma brace_pair_span t :
  brace_pair t ->
  exists pre inner post,
    t = pre ++ lbrace ++ inner ++ rbrace ++ post
    /\ ~ In 123%N pre /\ ~ In 125%N post.
Proof.
  intros (i & j & Hij & Hi & Hj).
  apply (occurs_at_nth 123%N) in Hi. apply (occurs_at_nth 125%N) in Hj.
  destruct (first_occurrence 123%N t (nth_error_In _ _ Hi)) as (pre & rest & Ht & Hpre).
  assert (length pre <= i) as Hle.
  { destruct (Nat.le_gt_cases (length pre) i) as [H|H]; [exact H|].
    exfalso. apply Hpre. rewrite Ht, nth_error_app1 in Hi by exact H.
    now apply nth_error_In in Hi. }
  assert (In 125%N rest) as Hin.
  { rewrite Ht, nth_error_app2 in Hj by lia.
    destruct (j - length pre) as [|k] eqn:E; [lia|]. simpl in Hj.
    now apply nth_error_In in Hj. }
  destruct (last_occurrence 125%N rest Hin) as (inner & post & Hrest & Hpost).
  exists pre, inner, post. subst rest. now split.
Qed.

(** The fallback on a text split at its first opening and last closing
    brace. *)
Lemma brace_fallback_span pre inner post (w : world_t) :
  ~ In 123%N pre -> ~ In 125%N post ->
  brace_fallback (pre ++ lbrace ++ inner ++ rbrace ++ post) w =
  match json_loads (lbrace ++ inner ++ rbrace) with
  | Ok v => (Ok v, w)
  | Raise e => (Raise e, w)
  end.
Proof.
  intros Hpre Hpost.
  set (t := pre ++ lbrace ++ inner ++ rbrace ++ post).
  assert (find t lbrace = Z.of_nat (length pre)) as Hfind.
  { unfold find, t, lbrace. cbn [lit list_ascii_of_string List.map app].
    change (N_of_ascii "{") with 123%N. now rewrite index_single. }
  assert (rfind t rbrace = Z.of_nat (length pre + length (lbrace ++ inner))) as Hrfind.
  { unfold rfind, t. rewrite (app_assoc lbrace), (app_assoc pre).
    unfold rbrace at 1 2. cbn [lit list_ascii_of_string List.map app].
    change (N_of_ascii "}") with 125%N.
    rewrite rindex_single by exact Hpost. now rewrite length_app. }
  assert (slice t (Z.of_nat (length pre))
            (Z.of_nat (length pre + length (lbrace ++ inner)) + 1)
          = lbrace ++ inner ++ rbrace) as Hslice.
  { replace (Z.of_nat (length pre + length (lbrace ++ inner)) + 1)%Z
      with (Z.of_nat (length pre + length (lbrace ++ inner ++ rbrace))).
    - rewrite <- (slice_middle pre (lbrace ++ inner ++ rbrace) post) at 2.
      unfold t. now rewrite <- !app_assoc.
    - rewrite !length_app. simpl. lia. }
  unfold brace_fallback. change (lit "{") with lbrace. change (lit "}") with rbrace.
  rewrite Hfind, Hrfind.
  replace (negb (Z.of_nat (length pre) =? -1)%Z
           && (Z.of_nat (length pre + length (lbrace ++ inner)) + 1
               >? Z.of_nat (length pre))%Z) with true.
  - rewrite Hslice. unfold bind, lift, ret.
    destruct (json_loads (lbrace ++ inner ++ rbrace)); reflexivity.
  - symmetry. apply andb_true_iff. split.
    + apply negb_true_iff, Z.eqb_neq. lia.
    + apply Z.gtb_lt. lia.
Qed.

(** X8.  The test of the brace fallback ([start != -1 and end > start])
    holds exactly when some opening brace comes before some closing brace.
    If none does, the fallback draws the "Could not parse" message and
    returns [None].  Otherwise it parses exactly the text from the first
    opening brace to the last closing brace, draws nothing itself, and an
    exception of that second parse leaves it. *)
Theorem brace_fallback_cases t (w : world_t) :
  (negb (find t lbrace =? -1)%Z && (rfind t rbrace + 1 >? find t lbrace)%Z = true
   <-> brace_pair t)
  /\ (~ brace_pair t ->
      brace_fallback t w
      = (Ok JNull, World (page w ++ [st_error CouldNotParse]) (sent w) (session w)))
  /\ (forall pre inner post,
        t = pre ++ lbrace ++ inner ++ rbrace ++ post ->
        ~ In 123%N pre -> ~ In 125%N post ->
        brace_fallback t w =
        match json_loads (lbrace ++ inner ++ rbrace) with
        | Ok v => (Ok v, w)
        | Raise e => (Raise e, w)
        end).
Proof.
  split; [|split].
  - split; [apply guard_brace_pair|].
    intros Hp. destruct (brace_pair_span t Hp) as (pre & inner & post & -> & Hpre & Hpost).
    assert (find (pre ++ lbrace ++ inner ++ rbrace ++ post) lbrace
            = Z.of_nat (length pre)) as ->.
    { unfold find, lbrace. cbn [lit list_ascii_of_string List.map app].
      change (N_of_ascii "{") with 123%N. now rewrite index_single. }
    assert (rfind (pre ++ lbrace ++ inner ++ rbrace ++ post) rbrace
            = Z.of_nat (length pre + length (lbrace ++ inner))) as ->.
    { unfold rfind. rewrite (app_assoc lbrace), (app_assoc pre).
      unfold rbrace at 1 2. cbn [lit list_ascii_of_string List.map app].
      change (N_of_ascii "}") with 125%N.
      rewrite rindex_single by exact Hpost. now rewrite length_app. }
    apply andb_true_iff. split.
    + apply negb_true_iff, Z.eqb_neq. lia.
    + apply Z.gtb_lt. lia.
  - apply brace_fallback_no_pair.
  - intros pre inner post -> Hpre Hpost. now apply brace_fallback_span.
Qed.

(** X9.  When the strict parse fails and the text between the first
    opening and the last closing brace is not valid JSON either, the
    second [json.loads] raises inside the handler of the first: the user
    sees "Analysis error" with that exception, not the "Could not parse"
    message, and [None] is returned. *)
Theorem analysis_error_on_bad_candidate c df text pre inner post e1 e2 (w : world_t)
  (Hreply : chat_completion c (analysis_request (to_csv df)) = Ok text)
  (Hspan : strip (json_block text) = pre ++ lbrace ++ inner ++ rbrace ++ post)
  (Hpre : ~ In 123%N pre) (Hpost : ~ In 125%N post)
  (Hstrict : json_loads (strip (json_block text)) = Raise e1)
  (Hkind : kind e1 = JSONDecodeError)
  (Hcandidate : json_loads (lbrace ++ inner ++ rbrace) = Raise e2) :
  analyze_data (Some c) df w
  = (Ok JNull,
     World (page w ++ [st_error (AnalysisError e2)])
           (sent w ++ [analysis_request (to_csv df)]) (session w)).
Proof.
  rewrite (analyze_data_reply c df text w Hreply). cbv zeta.
  rewrite parse_analysis_unfold, Hstrict, Hkind, Hspan.
  rewrite (brace_fallback_span pre inner post _ Hpre Hpost), Hcandidate.
  reflexivity.
Qed.

End ParserInput.

(** X8, witness: a reply with a closing brace before the opening one, and
    an object inside prose. *)
Lemma brace_fallback_cases_witness :
  let L := Ref.libraries (Ref.always []) in
  brace_fallback (lit "} then {") Ref.fresh
  = (Ok JNull, World [st_error CouldNotParse] [] (Session None None None))
  /\ brace_fallback (dq "a {'x': 1} b") Ref.fresh
     = (Ok (JObj [(lit "x", JInt 1)]), Ref.fresh).
Proof.
  intros L. split.
  - destruct (@brace_fallback_cases L (lit "} then {") Ref.fresh) as (Htest & Hnone & _).
    apply Hnone. intros Hp. apply Htest in Hp. discriminate Hp.
  - destruct (@brace_fallback_cases L (dq "a {'x': 1} b") Ref.fresh) as (_ & _ & Hspan).
    rewrite (Hspan (lit "a ") (dq "'x': 1") (lit " b") eq_refl ltac:(absent) ltac:(absent)).
    reflexivity.
Defined.

(** X9, witness: two objects in one reply. *)
Lemma analysis_error_on_bad_candidate_witness :
  let text := dq "{'a': 1} and {'b': 2}" in
  let L := Ref.libraries (Ref.always text) in
  exists e,
    kind e = JSONDecodeError
    /\ analyze_data (Some Ref.a_client) Ref.sample_table Ref.fresh
       = (Ok JNull,
          World [st_error (AnalysisError e)]
                [analysis_request (to_csv Ref.sample_table)] (Session None None None)).
Proof.
  intros text L.
  exists (Exn JSONDecodeError (lit "Extra data")). split; [reflexivity|].
  apply (@analysis_error_on_bad_candidate L Ref.a_client Ref.sample_table text
           [] (dq "'a': 1} and {'b': 2") []
           (Exn JSONDecodeError (lit "Extra data"))
           (Exn JSONDecodeError (lit "Extra data"))).
  - reflexivity.
  - reflexivity.
  - absent.
  - absent.
  - reflexivity.
  - reflexivity.
  - reflexivity.
Defined.

(** X7, witness: a fenced analysis reply and a labelled cleaning reply. *)
Lemma unfenced_text_has_no_fence_witness :
  contains (strip (lit "
{}
")) Spec.fence = false
  /\ contains (lit "a,b") Spec.fence = false.
Proof.
  split.
  - apply (proj1 (unfenced_text_has_no_fence (lit "```json
{}
``` and ```"))). reflexivity.
  - apply (proj2 (unfenced_text_has_no_fence (lit "```csv
a,b
```")) eq_refl). reflexivity.
Defined.

(* ================================================================== *)
(** * The handlers of the analysis tab *)
(* ================================================================== *)

Section TabHandlers.

Context {L : Libraries}.
Import Spec PyFacts LineFacts.

(** X10.  Pressing "Analyze Data Quality" never raises and never touches
    the stored cleaned text and table.  Whatever [analyze_data] returns for
    the first 100 rows, the handler stores exactly that value as the
    analysis when it is true in Python's sense, and stores nothing
    otherwise: after an error message (which comes with [None]), or a
    result such as an empty object or list, the session is exactly as
    before.  The handler draws nothing of its own. *)
Theorem on_analyze_keeps client df (w : world_t) :
  exists v w1,
    analyze_data client (head 100 df) w = (Ok v, w1)
    /\ session w1 = session w
    /\ (page w1 = page w
        \/ (v = JNull /\ exists m, page w1 = page w ++ [st_error m]))
    /\ on_analyze client df w
       = (Ok tt,
          if truthy v
          then World (page w1) (sent w1)
                 (Session (Some v) (stored_cleaned_data (session w))
                    (stored_cleaned_df (session w)))
          else w1).
Proof.
  destruct (analyze_data_outcome client (head 100 df) w) as (v & w1 & H & Hs & _ & Hp).
  exists v, w1. repeat split; [exact H | exact Hs | exact Hp |].
  unfold on_analyze, bind. rewrite H. destruct (truthy v).
  - unfold get_session, set_session. now rewrite Hs.
  - reflexivity.
Qed.

Lemma all_str_strings ss : all_str (List.map JStr ss) = Ok ss.
Proof.
  induction ss as [|s ss IH]; simpl; [reflexivity|]. now rewrite IH.
Qed.

(** X11.  A successful cleaning, end to end.  The issues are a list of
    strings; the request carries them joined by comma and space together
    with the CSV text of the whole table; the reply, unfenced, is not
    empty and parses.  Then the text and its table are stored together,
    the stored analysis is kept, and the success message and the balloons
    are drawn. *)
Theorem on_clean_success c df members ss reply text t (w : world_t)
  (Hissues : dict_lookup members (lit "issues") = Some (JArr (List.map JStr ss)))
  (Hreply : chat_completion c (cleaning_request (join (lit ", ") ss) (to_csv df))
            = Ok reply)
  (Htext : unfence_csv reply = Ok text)
  (Hfull : text <> [])
  (Hparse : read_csv text = Ok t) :
  on_clean (Some c) df (JObj members) w
  = (Ok tt,
     World (page w ++ [st_success CleanedOk; st_balloons])
           (sent w ++ [cleaning_request (join (lit ", ") ss) (to_csv df)])
           (Session (stored_analysis (session w)) (Some text) (Some t))).
Proof.
  assert (str_join (lit ", ") (JArr (List.map JStr ss)) = Ok (join (lit ", ") ss)) as Hjoin.
  { unfold str_join. simpl. now rewrite all_str_strings. }
  assert (clean_data (Some c) df (JArr (List.map JStr ss)) w
          = (Ok (Some text),
             World (page w)
                   (sent w ++ [cleaning_request (join (lit ", ") ss) (to_csv df)])
                   (session w))) as Hclean.
  { unfold clean_data, try_except, bind, lift, create. rewrite Hjoin, Hreply.
    cbn [fst snd]. rewrite Htext. reflexivity. }
  unfold on_clean, bind, lift, getitem. rewrite Hissues, Hclean.
  destruct text as [|ch text]; [congruence|]. cbn [truthy_str].
  unfold try_except, get_session, set_session, st. simpl. rewrite Hparse. simpl.
  now rewrite <- app_assoc.
Qed.

Lemma for_each_draws {A} (f : A -> widget_t) items :
  draws (for_each items (fun x => st (f x))) (List.map f items).
Proof.
  induction items as [|x items IH]; intros w; simpl.
  - unfold ret. rewrite app_nil_r. now destruct w.
  - unfold bind, st. rewrite IH. simpl. now rewrite <- app_assoc.
Qed.

Lemma enumerate_combine {A} (items : list A) start :
  enumerate start items = combine (seq start (length items)) items.
Proof.
  revert start; induction items as [|x items IH]; intros start; simpl; [reflexivity|].
  now rewrite IH.
Qed.

Lemma show_analysis_complete members summary issues recs color (w : world_t)
  (Hsummary : dict_lookup members (lit "summary") = Some summary)
  (Hissues : dict_lookup members (lit "issues") = Some (JArr issues))
  (Hrecs : dict_lookup members (lit "recommendations") = Some (JArr recs))
  (Hcolor : severity_color
              match dict_lookup members (lit "severity") with
              | Some severity => severity
              | None => JStr (lit "medium")
              end = Ok color) :
  show_analysis (JObj members) w
  = (Ok tt,
     World (page w
              ++ [st_info (DataQuality color summary); st_markdown "### Issues Found"]
              ++ List.map (fun p => st_warning (IssueLine (fst p) (snd p)))
                   (combine (seq 1 (length issues)) issues)
              ++ [st_markdown "### Recommendations"]
              ++ List.map (fun p => st_info (RecommendationLine (fst p) (snd p)))
                   (combine (seq 1 (length recs)) recs)
              ++ [st_markdown "---"])
           (sent w) (session w)).
Proof.
  unfold show_analysis.
  unfold bind at 1. unfold lift at 1, dict_get.
  destruct (dict_lookup members (lit "severity")) as [sev|];
    (unfold bind at 1; unfold lift at 1; rewrite Hcolor;
     unfold bind at 1; unfold lift at 1, getitem at 1; rewrite Hsummary;
     unfold bind at 1 2; unfold st at 1 2; cbn [page sent session];
     unfold bind at 1; unfold lift at 1, getitem at 1; rewrite Hissues; cbn [and_then py_iter];
     unfold bind at 1;
     rewrite (for_each_draws (fun p => st_warning (IssueLine (fst p) (snd p))));
     unfold bind at 1; unfold st at 1; cbn [page sent session];
     unfold bind at 1; unfold lift at 1, getitem at 1; rewrite Hrecs; cbn [and_then py_iter];
     unfold bind at 1;
     rewrite (for_each_draws (fun p => st_info (RecommendationLine (fst p) (snd p))));
     unfold st; cbn [page sent session];
     rewrite !enumerate_combine; f_equal; f_equal;
     repeat rewrite <- app_assoc; reflexivity).
Qed.

(** X12.  Display of a complete analysis.  With a summary, a list of
    issues, a list of recommendations and a severity that can be looked
    up, [show_analysis] ends normally and draws, in this order: the
    quality line with the colour of the severity and the summary, the
    issues heading, one warning per issue numbered from 1, the
    recommendations heading, one info line per recommendation numbered
    from 1, and the separator.  It sends nothing and stores nothing. *)
Theorem show_analysis_draws members summary issues recs color (w : world_t)
  (Hsummary : dict_lookup members (lit "summary") = Some summary)
  (Hissues : dict_lookup members (lit "issues") = Some (JArr issues))
  (Hrecs : dict_lookup members (lit "recommendations") = Some (JArr recs))
  (Hcolor : severity_color
              match dict_lookup members (lit "severity") with
              | Some severity => severity
              | None => JStr (lit "medium")
              end = Ok color) :
  show_analysis (JObj members) w
  = (Ok tt,
     World (page w
              ++ [st_info (DataQuality color summary); st_markdown "### Issues Found"]
              ++ List.map (fun p => st_warning (IssueLine (fst p) (snd p)))
                   (combine (seq 1 (length issues)) issues)
              ++ [st_markdown "### Recommendations"]
              ++ List.map (fun p => st_info (RecommendationLine (fst p) (snd p)))
                   (combine (seq 1 (length recs)) recs)
              ++ [st_markdown "---"])
           (sent w) (session w)).
Proof.
  exact (show_analysis_complete members summary issues recs color w Hsummary Hissues Hrecs Hcolor).
Qed.

(** X13.  Two stored analyses that can never be displayed, whatever else
    they hold: a value that is not an object (a list, a string, a number)
    makes the first lookup raise [AttributeError], and an object whose
    severity is a list or an object makes the colour lookup raise
    [TypeError].  In both cases nothing has been drawn when the exception
    leaves the display. *)
Theorem show_analysis_raises_early analysis (w : world_t) :
  ((forall members, analysis <> JObj members) ->
     exists e, kind e = AttributeError /\ show_analysis analysis w = (Raise e, w))
  /\ (forall members severity,
        analysis = JObj members ->
        dict_lookup members (lit "severity") = Some severity ->
        (exists items, severity = JArr items) \/ (exists ms, severity = JObj ms) ->
        exists e, kind e = TypeError /\ show_analysis analysis w = (Raise e, w)).
Proof.
  split.
  - intros Hn. destruct analysis; try (eexists; split; [|reflexivity]; reflexivity).
    exfalso. now apply (Hn members).
  - intros members severity -> Hs Hsev.
    unfold show_analysis, bind, lift, dict_get. rewrite Hs.
    destruct Hsev as [[items ->] | [ms ->]]; eexists; (split; [|reflexivity]); reflexivity.
Qed.

(** The stem of the uploaded name: the text before its last dot. *)
Lemma stem_dotted stem ext :
  ~ In 46%N ext ->
  match rindex (stem ++ lit "." ++ ext) (lit ".") with
  | Some i => firstn i (stem ++ lit "." ++ ext)
  | None => stem ++ lit "." ++ ext
  end = stem.
Proof.
  intros Hn. change (lit ".") with [46%N]. cbn [app].
  rewrite (rindex_single 46%N stem ext Hn).
  rewrite firstn_app, firstn_all, Nat.sub_diag. simpl. apply app_nil_r.
Qed.

(** X14.  The cleaned section.  With a cleaned text stored, it draws the
    four comparison metrics (each change is the cleaned figure minus the
    loaded one), the first 20 cleaned rows, and a download button whose
    data is the stored text and whose file name is [cleaned_], the
    uploaded name up to its last dot, and [.csv]; a name without a dot is
    used whole.  Without a stored cleaned text it raises [KeyError]. *)
Theorem show_cleaned_download stem ext bytes df cleaned (w : world_t)
  (Hdot : ~ In 46%N ext) :
  let metrics :=
    [st_markdown "---"; st_markdown "Cleaned Data";
     st_metric "Rows" (len cleaned)
       (Some (Change (Z.of_nat (len cleaned) - Z.of_nat (len df))));
     st_metric "Columns" (n_columns cleaned) None;
     st_metric "Missing Values" (missing_total cleaned)
       (Some (Change (Z.of_nat (missing_total cleaned) - Z.of_nat (missing_total df))));
     st_metric "Duplicates" (duplicates cleaned)
       (Some (Change (Z.of_nat (duplicates cleaned) - Z.of_nat (duplicates df))));
     st_dataframe (head 20 cleaned)] in
  (forall text, stored_cleaned_data (session w) = Some text ->
     show_cleaned (Upload (stem ++ lit "." ++ ext) bytes) df cleaned w
     = (Ok tt,
        World (page w ++ metrics
                 ++ [st_download_button text (lit "cleaned_" ++ stem ++ lit ".csv")])
              (sent w) (session w))
     /\ show_cleaned (Upload ext bytes) df cleaned w
        = (Ok tt,
           World (page w ++ metrics
                    ++ [st_download_button text (lit "cleaned_" ++ ext ++ lit ".csv")])
                 (sent w) (session w)))
  /\ (stored_cleaned_data (session w) = None ->
      fst (show_cleaned (Upload (stem ++ lit "." ++ ext) bytes) df cleaned w)
      = Raise (Exn KeyError (lit "cleaned_data"))).
Proof.
  intros metrics. subst metrics.
  assert (forall a b : nat, (- (Z.of_nat a - Z.of_nat b) = Z.of_nat b - Z.of_nat a)%Z)
    as Hneg by (intros; lia).
  split.
  - intros text Ht. split.
    + unfold show_cleaned, bind, st, get_session, lift. cbn [page sent session name].
      rewrite Ht, (stem_dotted stem ext Hdot), !Hneg. cbn [page sent session].
      f_equal. f_equal. repeat rewrite <- app_assoc. reflexivity.
    + unfold show_cleaned, bind, st, get_session, lift. cbn [page sent session name].
      rewrite Ht. change (lit ".") with [46%N].
      rewrite (rindex_single_None 46%N ext Hdot), !Hneg. cbn [page sent session].
      f_equal. f_equal. repeat rewrite <- app_assoc. reflexivity.
  - intros Hnone. unfold show_cleaned, bind, st, get_session, lift.
    cbn [page sent session name]. rewrite Hnone. reflexivity.
Qed.

End TabHandlers.

(** X11, witness: a labelled reply holding a two-column table. *)
Lemma on_clean_success_witness :
  let reply := lit "```csv
a,b
1,2
```" in
  let L := Ref.libraries (Ref.always reply) in
  let analysis := JObj [(lit "summary", JStr (lit "ok"));
                        (lit "issues", JArr [JStr (lit "duplicates"); JStr (lit "nulls")]);
                        (lit "recommendations", JArr [])] in
  on_clean (Some Ref.a_client) Ref.sample_table analysis
    (World [] [] (Session (Some analysis) None None))
  = (Ok tt,
     World [st_success CleanedOk; st_balloons]
           [cleaning_request (lit "duplicates, nulls") (to_csv Ref.sample_table)]
           (Session (Some analysis) (Some (lit "a,b
1,2"))
              (Some (Table [(lit "a", Ref.untyped); (lit "b", Ref.untyped)]
                           [[Some (lit "1"); Some (lit "2")]])))).
Proof.
  intros reply L analysis.
  apply (@on_clean_success L Ref.a_client Ref.sample_table _
           [lit "duplicates"; lit "nulls"] reply (lit "a,b
1,2")).
  - reflexivity.
  - reflexivity.
  - reflexivity.
  - discriminate.
  - reflexivity.
Defined.

(** X12, witness: two issues and one recommendation, no severity given. *)
Lemma show_analysis_draws_witness :
  let L := Ref.libraries (Ref.always []) in
  show_analysis
    (JObj [(lit "summary", JStr (lit "fair"));
           (lit "issues", JArr [JStr (lit "nulls"); JStr (lit "dates")]);
           (lit "recommendations", JArr [JStr (lit "impute")])])
    Ref.fresh
  = (Ok tt,
     World [st_info (DataQuality Yellow (JStr (lit "fair")));
            st_markdown "### Issues Found";
            st_warning (IssueLine 1 (JStr (lit "nulls")));
            st_warning (IssueLine 2 (JStr (lit "dates")));
            st_markdown "### Recommendations";
            st_info (RecommendationLine 1 (JStr (lit "impute")));
            st_markdown "---"]
           [] (Session None None None)).
Proof.
  intros L.
  apply (@show_analysis_draws L _ (JStr (lit "fair"))
           [JStr (lit "nulls"); JStr (lit "dates")] [JStr (lit "impute")] Yellow Ref.fresh);
    reflexivity.
Defined.

(** X13, witness: a stored list, and an object whose severity is a list. *)
Lemma show_analysis_raises_early_witness :
  let L := Ref.libraries (Ref.always []) in
  fst (show_analysis (JArr [JInt 1]) Ref.fresh) = Raise (Exn AttributeError (lit "get"))
  /\ fst (show_analysis
            (JObj [(lit "severity", JArr [JStr (lit "high")]);
                   (lit "summary", JStr (lit "s"));
                   (lit "issues", JArr []);
                   (lit "recommendations", JArr [])])
            Ref.fresh)
     = Raise (Exn TypeError (lit "unhashable type")).
Proof.
  intros L. split.
  - destruct (@show_analysis_raises_early L (JArr [JInt 1]) Ref.fresh) as [Hlist _].
    destruct (Hlist ltac:(discriminate)) as (e & _ & He).
    rewrite He. simpl. vm_compute in He. now injection He as <-.
  - destruct (@show_analysis_raises_early L
                (JObj [(lit "severity", JArr [JStr (lit "high")]);
                       (lit "summary", JStr (lit "s"));
                       (lit "issues", JArr []);
                       (lit "recommendations", JArr [])]) Ref.fresh) as [_ Hsev].
    destruct (Hsev _ (JArr [JStr (lit "high")]) eq_refl eq_refl) as (e & _ & He).
    + left. now eexists.
    + rewrite He. simpl. vm_compute in He. now injection He as <-.
Defined.

(** X14, witness: the download name for an upload called sales.2024.xlsx. *)
Lemma show_cleaned_download_witness :
  let L := Ref.libraries (Ref.always []) in
  let w := World [] [] (Session None (Some (lit "a,b")) (Some Ref.sample_table)) in
  last (page (snd (show_cleaned (Upload (lit "sales.2024.xlsx") []) Ref.sample_table
                     Ref.sample_table w))) st_balloons
  = st_download_button (lit "a,b") (lit "cleaned_sales.2024.csv").
Proof.
  intros L w.
  destruct (@show_cleaned_download L (lit "sales.2024") (lit "xlsx") [] Ref.sample_table
              Ref.sample_table w ltac:(absent)) as [Hstored _].
  destruct (Hstored (lit "a,b") eq_refl) as [Hdotted _].
  change (lit "sales.2024" ++ lit "." ++ lit "xlsx") with (lit "sales.2024.xlsx") in Hdotted.
  rewrite Hdotted. reflexivity.
Defined.

(* ================================================================== *)
(** * More on the table statistics *)
(* ================================================================== *)

Section MoreStatistics.

Context {L : Libraries}.
Import Spec.

Lemma list_sum_le_const (l : list nat) bound :
  Forall (fun x => x <= bound) l -> list_sum l <= length l * bound.
Proof.
  induction 1 as [|x l Hx Hl IH]; simpl; lia.
Qed.

(** X15.  The number of missing values never exceeds the number of cells,
    rows times columns (the two figures the percentage is computed
    from). *)
Theorem missing_total_bound (df : DataFrame) :
  missing_total df <= len df * n_columns df.
Proof.
  unfold missing_total, isnull_sum.
  etransitivity; [apply (list_sum_le_const _ (len df))|].
  - apply Forall_forall. intros x Hx. apply in_map_iff in Hx as (j & <- & _).
    etransitivity; [apply filter_length_le|].
    unfold column_cells, len. now rewrite length_map.
  - rewrite length_map, length_seq. lia.
Qed.

Lemma list_sum_map_add {A} (f g : A -> nat) l :
  list_sum (List.map (fun x => f x + g x) l)
  = list_sum (List.map f l) + list_sum (List.map g l).
Proof. induction l as [|x l IH]; simpl; lia. Qed.

Lemma row_nulls_by_index (r : list (option value)) :
  list_sum (List.map (fun j => indicator (is_null (nth j r None))) (seq 0 (length r)))
  = length (filter is_null r).
Proof.
  induction r as [|c r IH]; [reflexivity|].
  cbn [length seq List.map list_sum nth filter].
  rewrite <- seq_shift, map_map. cbn [nth list_sum fold_right].
  change (fold_right Nat.add 0) with list_sum. rewrite IH.
  destruct (is_null c); reflexivity.
Qed.

Lemma column_nulls_by_row n (rs : list (list (option value))) :
  Forall (fun r => length r = n) rs ->
  list_sum (List.map (fun j => length (filter is_null (List.map (fun r => nth j r None) rs)))
                     (seq 0 n))
  = null_cells rs.
Proof.
  unfold null_cells. induction 1 as [|r rs Hr Hrs IH].
  - simpl. induction (seq 0 n); simpl; auto.
  - cbn [List.map].
    change (list_sum (length (filter is_null r)
                        :: List.map (fun r0 => length (filter is_null r0)) rs))
      with (length (filter is_null r)
            + list_sum (List.map (fun r0 => length (filter is_null r0)) rs)).
    rewrite <- IH, <- (row_nulls_by_index r), Hr.
    rewrite <- list_sum_map_add. f_equal. apply map_ext. intros j.
    cbn [filter]. destruct (is_null (nth j r None)); reflexivity.
Qed.

(** X16.  For a table whose rows all have one cell per column, the number
    of missing values, which the script sums column by column, is the
    number of null cells counted row by row; so it is zero exactly when no
    cell is null. *)
Theorem missing_total_counts_cells (df : DataFrame) (Hrect : rectangular df) :
  missing_total df = null_cells (rows df)
  /\ (missing_total df = 0 <-> forall r, In r (rows df) -> ~ In None r).
Proof.
  assert (missing_total df = null_cells (rows df)) as Heq.
  { unfold missing_total, isnull_sum, column_cells. now apply column_nulls_by_row. }
  split; [exact Heq|]. rewrite Heq. unfold null_cells. clear.
  induction (rows df) as [|r rs IH]; simpl.
  - split; [intros _ r [] | reflexivity].
  - split.
    + intros H r' [<- | Hin].
      * intros Hnone. assert (In None (filter is_null r)) as X
          by (apply filter_In; now split).
        destruct (filter is_null r); [contradiction | simpl in H; lia].
      * apply IH; [lia | exact Hin].
    + intros H. assert (filter is_null r = []) as ->.
      { destruct (filter is_null r) as [|c l] eqn:E; [reflexivity|].
        exfalso. assert (In c (filter is_null r)) as X by (rewrite E; now left).
        apply filter_In in X as [Hin Hc]. destruct c; [discriminate|].
        now apply (H r (or_introl eq_refl)). }
      simpl. apply IH. intros r' Hin. apply H. now right.
Qed.

Lemma seen_iff (r : list (option value)) seen :
  existsb (row_eqb r) seen = true <-> In r seen.
Proof.
  rewrite existsb_exists. split.
  - intros (x & Hx & Heq). apply row_eqb_eq in Heq. now subst.
  - intros H. exists r. split; [exact H | now apply row_eqb_eq].
Qed.

Lemma unflagged_from rest : forall seen,
  let kept := unflagged rest (duplicated_from seen rest) in
  NoDup kept
  /\ (forall r, In r kept <-> In r rest /\ ~ In r seen)
  /\ length kept + length (filter (fun b : bool => b) (duplicated_from seen rest))
     = length rest.
Proof.
  induction rest as [|r rest IH]; intros seen kept; subst kept.
  - simpl. split; [constructor|]. split; [|reflexivity].
    intros r. split; [intros [] | intros [[] _]].
  - specialize (IH (r :: seen)). cbv zeta in IH. destruct IH as (Hnd & Hin & Hlen).
    cbn [duplicated_from]. unfold unflagged in *. cbn [combine filter snd].
    destruct (existsb (row_eqb r) seen) eqn:E; cbn [negb List.map fst filter length].
    + apply seen_iff in E. split; [exact Hnd|]. split; [|lia].
      intros x. rewrite Hin. split.
      * intros (H1 & H2). split; [now right|]. intros H. apply H2. now right.
      * intros ([-> | H1] & H2); [contradiction|]. split; [exact H1|].
        intros [<- | H]; contradiction.
    + assert (~ In r seen) as Hr.
      { intros H. apply seen_iff in H. congruence. }
      split; [|split; [|lia]].
      * constructor; [|exact Hnd]. intros H. apply Hin in H as (_ & H). apply H. now left.
      * intros x. split.
        -- intros [<- | H]; [split; [now left | exact Hr]|].
           apply Hin in H as (H1 & H2). split; [now right|].
           intros H. apply H2. now right.
        -- intros ([-> | H1] & H2); [now left|].
           destruct (row_eq_dec r x) as [-> | Hne]; [now left|].
           right. apply Hin. split; [exact H1|]. intros [H | H]; contradiction.
Qed.

(** X17.  Dropping the rows that [df.duplicated()] flags leaves every
    distinct row of the table exactly once: the rows kept are pairwise
    different, they are the same rows as those of the table, and their
    number plus the duplicate count is the number of rows.  In particular
    a non-empty table has fewer duplicates than rows. *)
Theorem duplicated_keeps_first (df : DataFrame) :
  let kept := unflagged (rows df) (duplicated df) in
  NoDup kept
  /\ (forall r, In r kept <-> In r (rows df))
  /\ length kept + duplicates df = len df
  /\ (0 < len df -> duplicates df < len df).
Proof.
  intros kept. subst kept. unfold duplicates, duplicated, len.
  destruct (unflagged_from (rows df) []) as (Hnd & Hin & Hlen). cbv zeta in *.
  split; [exact Hnd|]. split; [|split; [exact Hlen|]].
  - intros r. rewrite Hin. split; [now intros [H _] | intros H; split; [exact H | intros []]].
  - intros Hpos.
    destruct (rows df) as [|r rs] eqn:E; [simpl in Hpos; lia|].
    assert (In r (unflagged (r :: rs) (duplicated_from [] (r :: rs)))) as Hk.
    { apply Hin. split; [now left | intros []]. }
    revert Hlen Hk.
    generalize (length (filter (fun b : bool => b) (duplicated_from [] (r :: rs)))).
    generalize (unflagged (r :: rs) (duplicated_from [] (r :: rs))).
    intros [|x l] n Hlen Hk; [contradiction|]. cbn [length] in *. lia.
Qed.








End MoreStatistics.

(* ================================================================== *)
(** * A run in which no button is pressed *)
(* ================================================================== *)

Section QuietRun.

Context {L : Libraries}.
Import Spec.

Lemma quiet_ret {A} (a : A) : quiet (ret a).
Proof. intros w. now split. Qed.

Lemma quiet_lift {A} (o : outcome A) : quiet (lift o).
Proof. intros w. now split. Qed.

Lemma quiet_st x : quiet (st x).
Proof. intros w. now split. Qed.

Lemma quiet_get_session : quiet get_session.
Proof. intros w. now split. Qed.

Lemma quiet_bind {A B} (m : M A) (k : A -> M B) :
  quiet m -> (forall a, quiet (k a)) -> quiet (bind m k).
Proof.
  intros Hm Hk w. unfold bind. destruct (Hm w) as [H1 H2].
  destruct (m w) as [[a|e] w1]; simpl in *.
  - destruct (Hk a w1) as [H3 H4]. split; congruence.
  - now split.
Qed.

Lemma quiet_try {A} (body : M A) handler :
  quiet body -> (forall e, quiet (handler e)) -> quiet (try_except body handler).
Proof.
  intros Hb Hh w. unfold try_except. destruct (Hb w) as [H1 H2].
  destruct (body w) as [[a|e] w1]; simpl in *.
  - now split.
  - destruct (Hh e w1) as [H3 H4]. split; congruence.
Qed.

Lemma quiet_draws (m : M unit) l : draws m l -> quiet m.
Proof. intros H w. rewrite H. now split. Qed.

Lemma quiet_for_each {A} (items : list A) body :
  (forall x, quiet (body x)) -> quiet (for_each items body).
Proof.
  intros Hb. induction items as [|x items IH]; simpl.
  - apply quiet_ret.
  - apply quiet_bind; [apply Hb | intros _; exact IH].
Qed.

Ltac quietly :=
  repeat first
    [ apply quiet_ret | apply quiet_st | apply quiet_lift | apply quiet_get_session
    | apply quiet_for_each; intros
    | apply quiet_bind; [|intros]
    | apply quiet_try; [|intros] ].

Lemma quiet_load_file f : quiet (load_file f).
Proof.
  unfold load_file. apply quiet_try; [|intros; quietly].
  destruct (str_eqb _ _); [quietly|]. destruct (_ || _); quietly.
Qed.

Lemma quiet_show_analysis analysis : quiet (show_analysis analysis).
Proof. unfold show_analysis. quietly. Qed.

Lemma quiet_show_cleaned f df cleaned : quiet (show_cleaned f df cleaned).
Proof.
  unfold show_cleaned. quietly.
  match goal with |- quiet (match ?x with _ => _ end) => destruct x end; quietly.
Qed.

Lemma quiet_get_client env : quiet (get_client env).
Proof.
  unfold get_client. apply quiet_try; [|intros; quietly].
  destruct (env _) as [k|]; [destruct (truthy_str k)|]; quietly.
Qed.

Lemma quiet_analysis_tab client f df b :
  analyze_clicked b = false -> clean_clicked b = false ->
  quiet (analysis_tab client f df b).
Proof.
  intros Ha Hc. unfold analysis_tab. rewrite Ha, Hc.
  apply quiet_bind; [apply quiet_st | intros _].
  destruct client; [|quietly].
  apply quiet_bind; [apply quiet_ret | intros _].
  apply quiet_bind; [apply quiet_get_session | intros s].
  destruct (stored_analysis s); [|apply quiet_ret].
  apply quiet_bind; [apply quiet_show_analysis | intros _].
  apply quiet_bind; [apply quiet_ret | intros _].
  apply quiet_bind; [apply quiet_get_session | intros s'].
  destruct (stored_cleaned_df s'); [apply quiet_show_cleaned | apply quiet_ret].
Qed.

(** X19.  A run in which neither button is pressed contacts nobody and
    stores nothing: whatever the environment, the upload and the state of
    the session, and even if the display of a stored analysis raises, the
    requests sent and the session are the same after the run as
    before. *)
Theorem script_without_clicks_is_quiet env uploaded b (w : world_t)
  (Hanalyze : analyze_clicked b = false) (Hclean : clean_clicked b = false) :
  sent (snd (script env uploaded b w)) = sent w
  /\ session (snd (script env uploaded b w)) = session w.
Proof.
  revert w. change (quiet (script env uploaded b)).
  unfold script.
  do 3 (apply quiet_bind; [apply quiet_st | intros _]).
  apply quiet_bind; [apply quiet_get_client | intros client].
  unfold main. apply quiet_bind.
  - destruct uploaded as [f|].
    + apply quiet_bind; [apply quiet_load_file | intros [df|]]; [|apply quiet_ret].
      apply quiet_bind; [apply quiet_st | intros _].
      apply quiet_bind; [apply (quiet_draws _ _ (key_metrics_draws df)) | intros _].
      apply quiet_bind; [apply (quiet_draws _ _ (preview_tab_draws df)) | intros _].
      apply quiet_bind; [apply (quiet_draws _ _ (visualization_tab_draws df)) | intros _].
      now apply quiet_analysis_tab.
    + apply (quiet_draws (welcome client) (drawn (welcome client))).
      unfold welcome. destruct client; eapply draws_self;
        repeat first [apply draws_st | apply draws_ret | eapply draws_bind].
  - intros _. apply (quiet_draws _ _ (sidebar_draws client)).
Qed.


End QuietRun.

(** X19, witness: a stored analysis that cannot be displayed; the run
    raises, and still nothing is sent or stored. *)
Lemma script_without_clicks_is_quiet_witness :
  let L := Ref.libraries (Ref.always []) in
  let stored := Session (Some (JObj [(lit "severity", JStr (lit "high"))])) None None in
  let run := script (fun _ => Some (lit "gsk_test")) (Some Ref.sample_file)
               (Clicks false false) (World [] [] stored) in
  fst run = Raise (Exn KeyError (lit "summary"))
  /\ sent (snd run) = [] /\ session (snd run) = stored.
Proof.
  intros L stored run. split; [reflexivity|].
  apply (@script_without_clicks_is_quiet L (fun _ => Some (lit "gsk_test"))
           (Some Ref.sample_file) (Clicks false false) (World [] [] stored));
    reflexivity.
Defined.


(* ================================================================== *)
(** * Failures of the remote call, and what the handlers keep *)
(* ================================================================== *)

Section RemoteFailure.

Context {L : Libraries}.
Import Spec.

(** X21.  A failed remote call is reported under the heading of the
    function that made it and changes nothing that is stored.  When the
    analysis call raises [e], the analysis handler draws "Analysis error"
    with [e]; when the cleaning call raises [e], the cleaning handler
    draws "Cleaning error" with [e]; in both cases the handler ends
    normally, the request counts as sent, and the session is as before. *)
Theorem remote_failure_reported c df e (w : world_t) :
  (chat_completion c (analysis_request (to_csv (head 100 df))) = Raise e ->
     on_analyze (Some c) df w
     = (Ok tt,
        World (page w ++ [st_error (AnalysisError e)])
              (sent w ++ [analysis_request (to_csv (head 100 df))]) (session w)))
  /\ (forall members ss,
        dict_lookup members (lit "issues") = Some (JArr (List.map JStr ss)) ->
        chat_completion c (cleaning_request (join (lit ", ") ss) (to_csv df)) = Raise e ->
        on_clean (Some c) df (JObj members) w
        = (Ok tt,
           World (page w ++ [st_error (CleaningError e)])
                 (sent w ++ [cleaning_request (join (lit ", ") ss) (to_csv df)])
                 (session w))).
Proof.
  split.
  - intros H. unfold on_analyze, bind, analyze_data, try_except, create.
    rewrite H. reflexivity.
  - intros members ss Hi H.
    assert (str_join (lit ", ") (JArr (List.map JStr ss)) = Ok (join (lit ", ") ss)) as Hjoin.
    { unfold str_join. simpl. now rewrite all_str_strings. }
    unfold on_clean, bind, lift, getitem. rewrite Hi.
    unfold clean_data, try_except, bind, lift, create. rewrite Hjoin, H. reflexivity.
Qed.

(** X22.  What the cleaning handler keeps.  For an analysis that has its
    issues, the handler never raises and never changes the stored
    analysis; and it stores a table only together with the text that
    table was parsed from. *)
Theorem on_clean_invariants client df members issues (w : world_t)
  (Hissues : dict_lookup members (lit "issues") = Some issues) :
  exists w', on_clean client df (JObj members) w = (Ok tt, w')
    /\ stored_analysis (session w') = stored_analysis (session w)
    /\ (stored_cleaned_df (session w') = stored_cleaned_df (session w)
        \/ exists text t, read_csv text = Ok t
             /\ stored_cleaned_data (session w') = Some text
             /\ stored_cleaned_df (session w') = Some t).
Proof.
  unfold on_clean, bind, lift, getitem. rewrite Hissues.
  destruct (clean_data_outcome client df issues w) as (r & w1 & H & Hs & _ & _ & _).
  rewrite H. destruct r as [text|].
  - destruct (truthy_str text).
    + unfold try_except, get_session, set_session, st. simpl.
      destruct (read_csv text) as [t|e] eqn:E; simpl.
      * eexists. split; [reflexivity|]. simpl. split; [now rewrite Hs|].
        right. now exists text, t.
      * eexists. split; [reflexivity|]. simpl. rewrite Hs. split; [reflexivity | now left].
    + exists w1. rewrite Hs. repeat split. now left.
  - exists w1. rewrite Hs. repeat split. now left.
Qed.

End RemoteFailure.

(** X21, witness: an endpoint that always times out. *)
Lemma remote_failure_reported_witness :
  let timeout := Exn OtherException (lit "timeout") in
  let L := Ref.libraries (fun _ _ => Raise timeout) in
  let stored := Session (Some (JObj [(lit "issues", JArr [JStr (lit "nulls")])]))
                        (Some (lit "a,b")) None in
  on_analyze (Some Ref.a_client) Ref.sample_table (World [] [] stored)
  = (Ok tt,
     World [st_error (AnalysisError timeout)]
           [analysis_request (to_csv Ref.sample_table)] stored)
  /\ on_clean (Some Ref.a_client) Ref.sample_table
       (JObj [(lit "issues", JArr [JStr (lit "nulls")])]) (World [] [] stored)
     = (Ok tt,
        World [st_error (CleaningError timeout)]
              [cleaning_request (lit "nulls") (to_csv Ref.sample_table)] stored).
Proof.
  intros timeout L stored.
  destruct (@remote_failure_reported L Ref.a_client Ref.sample_table timeout
              (World [] [] stored)) as [Hanalyze Hclean].
  split.
  - exact (Hanalyze eq_refl).
  - exact (Hclean [(lit "issues", JArr [JStr (lit "nulls")])] [lit "nulls"] eq_refl eq_refl).
Defined.

(** X22, witness: a reply that parses, on a session with an analysis. *)
Lemma on_clean_invariants_witness :
  let L := Ref.libraries (Ref.always (lit "a,b
1,2")) in
  let analysis := JObj [(lit "issues", JArr [JStr (lit "nulls")])] in
  exists w',
    on_clean (Some Ref.a_client) Ref.sample_table analysis
      (World [] [] (Session (Some analysis) None None)) = (Ok tt, w')
    /\ stored_analysis (session w') = Some analysis.
Proof.
  intros L analysis.
  destruct (@on_clean_invariants L (Some Ref.a_client) Ref.sample_table
              [(lit "issues", JArr [JStr (lit "nulls")])] (JArr [JStr (lit "nulls")])
              (World [] [] (Session (Some analysis) None None)) eq_refl)
    as (w' & Hrun & Hkeep & _).
  exists w'. split; [exact Hrun | exact Hkeep].
Defined.

Section HappyPath.

Context {L : Libraries}.
Import Spec.

(** X23.  A successful analysis is stored and shown in the same run.  The
    button is pressed, the reply parses strictly into a complete object,
    and no cleaned table is stored: then the request for the first 100
    rows is sent, the object replaces whatever analysis was stored, the
    stored cleaned text is kept, and the tab draws its heading followed by
    the display of the new object. *)
Theorem analysis_stored_and_shown c f df text members summary issues recs color
    old cleaned_text (w : world_t)
  (Hreply : chat_completion c (analysis_request (to_csv (head 100 df))) = Ok text)
  (Hparse : json_loads (strip (json_block text)) = Ok (JObj members))
  (Hsummary : dict_lookup members (lit "summary") = Some summary)
  (Hissues : dict_lookup members (lit "issues") = Some (JArr issues))
  (Hrecs : dict_lookup members (lit "recommendations") = Some (JArr recs))
  (Hcolor : severity_color
              match dict_lookup members (lit "severity") with
              | Some severity => severity
              | None => JStr (lit "medium")
              end = Ok color)
  (Hsession : session w = Session old cleaned_text None) :
  analysis_tab (Some c) f df (Clicks true false) w
  = (Ok tt,
     World (page w
              ++ [st_markdown "AI-Powered Analysis"]
              ++ [st_info (DataQuality color summary); st_markdown "### Issues Found"]
              ++ List.map (fun p => st_warning (IssueLine (fst p) (snd p)))
                   (combine (seq 1 (length issues)) issues)
              ++ [st_markdown "### Recommendations"]
              ++ List.map (fun p => st_info (RecommendationLine (fst p) (snd p)))
                   (combine (seq 1 (length recs)) recs)
              ++ [st_markdown "---"])
           (sent w ++ [analysis_request (to_csv (head 100 df))])
           (Session (Some (JObj members)) cleaned_text None)).
Proof.
  assert (truthy (JObj members) = true) as Htrue.
  { destruct members; [discriminate Hsummary | reflexivity]. }
  unfold analysis_tab. cbn [analyze_clicked clean_clicked].
  unfold bind at 1. unfold st at 1. cbn [page sent session].
  unfold bind at 1. unfold on_analyze. unfold bind at 1.
  rewrite (analyze_data_reply c (head 100 df) text _ Hreply). cbv zeta.
  rewrite parse_analysis_unfold, Hparse, Htrue.
  unfold bind at 1. unfold get_session at 1, set_session at 1. cbn [page sent session].
  unfold bind at 1. unfold get_session at 1. cbn [page sent session stored_analysis].
  unfold bind at 1.
  rewrite (show_analysis_complete members summary issues recs color _
             Hsummary Hissues Hrecs Hcolor).
  cbn [page sent session]. unfold bind at 1. unfold ret at 1.
  unfold bind at 1. unfold get_session at 1. cbn [page sent session stored_cleaned_df].
  rewrite Hsession. cbn [stored_cleaned_data stored_cleaned_df]. unfold ret.
  f_equal. f_equal. repeat rewrite <- app_assoc. reflexivity.
Qed.

End HappyPath.

(** X16, witness: the sample table, with its one null cell. *)
Lemma missing_total_counts_cells_witness :
  let L := Ref.libraries (Ref.always []) in
  Spec.rectangular Ref.sample_table /\ missing_total Ref.sample_table = 1.
Proof.
  intros L.
  assert (Spec.rectangular Ref.sample_table) as Hrect.
  { repeat constructor. }
  split; [exact Hrect|].
  destruct (@missing_total_counts_cells L Ref.sample_table Hrect) as [Heq _].
  exact (eq_trans Heq eq_refl).
Defined.

(** X23, witness: a fenced reply holding a complete analysis, on a session
    that already holds an older analysis and a cleaned text. *)
Lemma analysis_stored_and_shown_witness :
  let text := dq "```json
{'summary': 'fair', 'issues': ['nulls'], 'recommendations': ['impute'], 'severity': 'high'}
```" in
  let L := Ref.libraries (Ref.always text) in
  let analysis := JObj [(lit "summary", JStr (lit "fair"));
                        (lit "issues", JArr [JStr (lit "nulls")]);
                        (lit "recommendations", JArr [JStr (lit "impute")]);
                        (lit "severity", JStr (lit "high"))] in
  analysis_tab (Some Ref.a_client) Ref.sample_file Ref.sample_table (Clicks true false)
    (World [] [] (Session (Some (JArr [])) (Some (lit "a,b")) None))
  = (Ok tt,
     World [st_markdown "AI-Powered Analysis";
            st_info (DataQuality Red (JStr (lit "fair")));
            st_markdown "### Issues Found";
            st_warning (IssueLine 1 (JStr (lit "nulls")));
            st_markdown "### Recommendations";
            st_info (RecommendationLine 1 (JStr (lit "impute")));
            st_markdown "---"]
           [analysis_request (to_csv Ref.sample_table)]
           (Session (Some analysis) (Some (lit "a,b")) None)).
Proof.
  intros text L analysis.
  apply (@analysis_stored_and_shown L Ref.a_client Ref.sample_file Ref.sample_table text
           _ (JStr (lit "fair")) [JStr (lit "nulls")] [JStr (lit "impute")] Red
           (Some (JArr [])) (Some (lit "a,b"))
           (World [] [] (Session (Some (JArr [])) (Some (lit "a,b")) None)));
    reflexivity.
Defined.

(* ================================================================== *)
(** * The preview and visualization tabs *)
(* ================================================================== *)

Section Tabs.

Context {L : Libraries}.
Import Spec.

Lemma nth_map_seq (f : nat -> nat) n start j :
  j < n -> nth j (List.map f (seq start n)) 0 = f (start + j).
Proof.
  revert start j; induction n as [|n IH]; intros start j Hj; [lia|].
  destruct j as [|j]; simpl.
  - f_equal. lia.
  - rewrite IH by lia. f_equal. lia.
Qed.

Lemma null_split (cells : list (option value)) :
  length (filter (fun c => negb (is_null c)) cells) + length (filter is_null cells)
  = length cells.
Proof.
  induction cells as [|c cells IH]; simpl; [reflexivity|].
  destruct (is_null c); simpl; lia.
Qed.

Lemma distinct_le seen (cells : list (option value)) :
  distinct seen cells <= length (filter (fun c => negb (is_null c)) cells).
Proof.
  revert seen; induction cells as [|c cells IH]; intros seen; simpl; [lia|].
  destruct (is_null c); simpl.
  - apply IH.
  - destruct (existsb (cell_eqb c) seen).
    + specialize (IH seen). lia.
    + specialize (IH (c :: seen)). lia.
Qed.

(** X24.  The "Column Information" table has one line per column, and on
    every line the non-null count and the null count add up to the number
    of rows of the table, while the number of unique values is at most the
    non-null count. *)
Theorem column_info_counts (df : DataFrame) :
  length (column_info df) = n_columns df
  /\ Forall (fun line => let '(_, _, non_nulls, nulls, unique) := line in
               non_nulls + nulls = len df /\ unique <= non_nulls)
            (column_info df).
Proof.
  unfold column_info. split.
  - rewrite length_map, length_combine, length_seq. unfold n_columns. lia.
  - apply Forall_forall. intros line Hin.
    apply in_map_iff in Hin as ([j [cname ty]] & <- & Hin).
    apply in_combine_l, in_seq in Hin.
    unfold isnull_sum. rewrite nth_map_seq by lia. cbn [Nat.add].
    unfold non_null, nunique. split.
    + rewrite null_split. unfold column_cells, len. apply length_map.
    + apply distinct_le.
Qed.



End Tabs.
